(** * Toradex Oak HID base functions (rig/OakHidBase.cpp)

    A shallow embedding of the Linux hiddev wrapper of the Oak sensor
    library: the report codec, the field-descriptor decoders, the
    request/reply protocol engine and the interrupt reader, together with
    the properties of these functions.

    Conventions of the embedding:
    - C integers are [Z] with the conversions written out ([to_int],
      [to_uint], [to_uchar]);
    - a byte ([unsigned char], [char]) is an [ascii]; a [std::string] and
      a feature report are lists of bytes;
    - an out parameter is passed in and returned next to the status;
    - the kernel is an abstract state machine ([HidDev]); every system call
      the code makes is appended to a trace. *)

From Stdlib Require Import ZArith Ascii String Lia.
From stdpp Require Import base list numbers strings.

Open Scope Z_scope.

(** ** Machine integers *)

Module CInt.

(** Conversion to a 32-bit [int] (two's complement wrap-around). *)
Definition to_int (z : Z) : Z := (z + 2 ^ 31) mod 2 ^ 32 - 2 ^ 31.

(** Conversion to a 32-bit [unsigned int]. *)
Definition to_uint (z : Z) : Z := z mod 2 ^ 32.

(** Conversion to [unsigned char]. *)
Definition to_uchar (z : Z) : Z := z mod 256.

(** [std::string::npos], the largest [size_t]. *)
Definition npos : Z := 2 ^ 64 - 1.

Definition INT_MIN : Z := - 2 ^ 31.
Definition INT_MAX : Z := 2 ^ 31 - 1.

Definition in_int (z : Z) : Prop := INT_MIN <= z <= INT_MAX.

End CInt.

Import CInt.

(** ** Bytes and strings *)

Abbreviation byte := ascii (only parsing).
Abbreviation std_string := (list ascii) (only parsing).

(** A string literal as a [std::string]. *)
Definition str (s : string) : std_string := list_ascii_of_string s.

(** [int(b)] for an [unsigned char] b. *)
Definition int_of_byte (b : byte) : Z := Z.of_N (N_of_ascii b).

(** [(unsigned char)(z)] for an [int] z. *)
Definition byte_of_int (z : Z) : byte := ascii_of_N (Z.to_N (to_uchar z)).

Definition NUL : byte := zero.

Definition is_NUL (b : byte) : bool := Ascii.eqb b NUL.

(** The C string that starts at the head of a buffer: the bytes before the
    first NUL ([std::string(const char* )]). *)
Fixpoint c_str (buf : list byte) : std_string :=
  match buf with
  | [] => []
  | b :: rest => if is_NUL b then [] else b :: c_str rest
  end.

(** [s.rfind(c)]: the index of the last occurrence of [c], or [npos]. The
    scan keeps the last index seen. *)
Fixpoint rfind_from (s : std_string) (c : byte) (i : Z) (last : Z) : Z :=
  match s with
  | [] => last
  | a :: s' => rfind_from s' c (i + 1) (if Ascii.eqb a c then i else last)
  end.

Definition rfind (s : std_string) (c : byte) : Z := rfind_from s c 0 npos.

(** [s.substr(pos, n)] for [0 <= pos <= s.size()] and [0 <= n]; the call
    in [getFieldUnit] stays in that range for every name that fits an [int]
    (see [getFieldUnit_parse_spec]). *)
Definition substr (s : std_string) (pos n : Z) : std_string :=
  take (Z.to_nat n) (drop (Z.to_nat pos) s).

(** ** Status codes (EOakStatus) *)

(** The enumeration is declared in the header; its enumerators are the
    cases of [getStatusString], lines 479-489. *)

Inductive EOakStatus : Type :=
| eOakStatusOK
| eOakStatusErrorOpeningFile
| eOakStatusInvalidDeviceType
| eOakStatusInternalError
| eOakStatusInvalidStringDescriptorIndex
| eOakStatusReadError
| eOakStatusWriteError.

Definition EOakStatus_eqb (a b : EOakStatus) : bool :=
  match a, b with
  | eOakStatusOK, eOakStatusOK
  | eOakStatusErrorOpeningFile, eOakStatusErrorOpeningFile
  | eOakStatusInvalidDeviceType, eOakStatusInvalidDeviceType
  | eOakStatusInternalError, eOakStatusInternalError
  | eOakStatusInvalidStringDescriptorIndex, eOakStatusInvalidStringDescriptorIndex
  | eOakStatusReadError, eOakStatusReadError
  | eOakStatusWriteError, eOakStatusWriteError => true
  | _, _ => false
  end.

Definition is_OK (s : EOakStatus) : bool := EOakStatus_eqb eOakStatusOK s.

(** ** Feature reports *)

(** Modelled from the spec: the header that declares [OakFeatureReport] and
    [kFeatureReportSize] is not part of the sources; the spec gives a report
    as a fixed buffer of 32 bytes, which agrees with the loop bound of
    [printFeatureReport]. *)
Definition kFeatureReportSize : nat := 32.

Abbreviation OakFeatureReport := (list ascii) (only parsing).

Definition well_sized (report : OakFeatureReport) : Prop :=
  length report = kFeatureReportSize.

(** [memcpy(dst + off, src, n)] with [n] the length of [src]. *)
Definition memcpy_at (dst : list byte) (off : nat) (src : list byte) : list byte :=
  list_inserts off src dst.

(** [putStringInReport], lines 137-144. *)
Definition putStringInReport (report : OakFeatureReport) (theString : std_string)
  : EOakStatus * OakFeatureReport :=
  let str0 := theString in
  let str1 := if 20 <? Z.of_nat (length str0) then substr str0 0 20 else str0 in
  (eOakStatusOK, memcpy_at report 5 str1).

(** [getStringFromReport], lines 154-159; returns the status, the report as
    the call leaves it and the out string. *)
Definition getStringFromReport (report : OakFeatureReport) (outString : std_string)
  : EOakStatus * OakFeatureReport * std_string :=
  let report' := <[21%nat := NUL]> report in
  (eOakStatusOK, report', c_str (drop 1 report')).

(** ** Field descriptors (struct hiddev_field_info of linux/hiddev.h) *)

Record hiddev_field_info : Type := mk_field_info {
  report_type : Z;
  report_id : Z;
  field_index : Z;
  maxusage : Z;
  flags : Z;
  physical : Z;
  logical : Z;
  application : Z;
  logical_minimum : Z;   (* __s32 *)
  logical_maximum : Z;   (* __s32 *)
  physical_minimum : Z;  (* __s32 *)
  physical_maximum : Z;  (* __s32 *)
  unit_exponent : Z;     (* __u32 *)
  unit : Z               (* __u32 *)
}.

(** The ranges that the C types of the fields used below impose. *)
Definition field_info_wf (f : hiddev_field_info) : Prop :=
  in_int (physical_minimum f) /\ in_int (physical_maximum f) /\
  0 <= unit_exponent f < 2 ^ 32 /\ 0 <= unit f < 2 ^ 32.

(** [getFieldExponent], lines 260-263. Both branches of the conditional
    have type [unsigned int]; the result is converted to [int]. *)
Definition getFieldExponent (finfo : hiddev_field_info) : Z :=
  to_int (if 8 <=? unit_exponent finfo
          then to_uint (unit_exponent finfo - 16)
          else unit_exponent finfo).

(** [isFieldSigned], lines 272-275. *)
Definition isFieldSigned (finfo : hiddev_field_info) : bool :=
  physical_minimum finfo <? 0.

(** [getFieldBitSize], lines 284-291. The subtraction is done on two
    [__s32] operands, hence in [int], and only its result is widened to
    [long long]. *)
Definition getFieldBitSize (finfo : hiddev_field_info) : Z :=
  let physicalRange := to_int (physical_maximum finfo - physical_minimum finfo) in
  if physicalRange <=? 0xff then 8
  else if physicalRange <=? 0xffff then 16
  else if physicalRange <=? 0xffffffff then 32
  else 64.

(** ** The hiddev interface of the kernel *)

(** struct hiddev_event. *)
Record hiddev_event : Type := mk_event { hid : Z; value : Z }.

Definition HID_REPORT_TYPE_INPUT : Z := 1.
Definition HID_REPORT_ID_FIRST : Z := 0x100.

(** The size of [hiddev_string_descriptor.value], a [char] array. *)
Definition HID_STRING_SIZE : nat := 256.

(** [sizeof(ev[0])] and [sizeof(ev)] for [struct hiddev_event ev[64]]. *)
Definition sizeof_event : Z := 8.
Definition sizeof_ev : Z := 64 * sizeof_event.

(** What the code does to the outside, in program order: the system calls
    on the device file, and the resizes of the caller's vector. *)
Inductive event : Type :=
| EvGSTRING (h index : Z)
| EvGFIELDINFO (h : Z) (finfo : hiddev_field_info)
| EvGREPORT (h : Z)
| EvGUSAGES (h : Z)
| EvSUSAGES (h : Z) (values : list Z)
| EvSREPORT (h : Z)
| EvRead (h nbytes : Z)
| EvResize (n : Z).

(** The kernel as a state machine over [K]. Each operation takes the device
    handle, the payload the code passes in, and the kernel state; it gives
    the return value of the call, what the kernel wrote to the user buffer,
    and the next kernel state. An array written by the kernel is given as
    the function from index to element held after the call. *)
Record HidDev (K : Type) : Type := mk_HidDev {
  HIDIOCGSTRING : Z -> Z -> K -> Z * list byte * K;
  HIDIOCGFIELDINFO : Z -> hiddev_field_info -> K -> Z * hiddev_field_info * K;
  HIDIOCGREPORT : Z -> K -> Z * K;
  HIDIOCGUSAGES : Z -> K -> Z * (nat -> Z) * K;
  HIDIOCSUSAGES : Z -> list Z -> K -> Z * K;
  HIDIOCSREPORT : Z -> K -> Z * K;
  sys_read : Z -> Z -> K -> Z * (nat -> hiddev_event) * K
}.

Arguments HIDIOCGSTRING {K}.
Arguments HIDIOCGFIELDINFO {K}.
Arguments HIDIOCGREPORT {K}.
Arguments HIDIOCGUSAGES {K}.
Arguments HIDIOCSUSAGES {K}.
Arguments HIDIOCSREPORT {K}.
Arguments sys_read {K}.

(** The state the functions run in: the kernel, the function-static
    [tempReport] of [sendReportAndWaitForReply], and the trace so far. *)
Record World (K : Type) : Type := mk_World {
  kernel : K;
  tempReport : list byte;
  trace : list event
}.

Arguments mk_World {K}.
Arguments kernel {K}.
Arguments tempReport {K}.
Arguments trace {K}.

(** A run either returns a value in a new world, or exhausts the iteration
    budget of a polling loop in the world it has reached by then. *)
Inductive outcome (K A : Type) : Type :=
| Returns (a : A) (w : World K)
| OutOfFuel (w : World K).

Arguments Returns {K A}.
Arguments OutOfFuel {K A}.

Definition M (K A : Type) : Type := World K -> outcome K A.

Definition ret {K A} (a : A) : M K A := fun w => Returns a w.

Definition bind {K A B} (c : M K A) (k : A -> M K B) : M K B :=
  fun w => match c w with
           | Returns a w' => k a w'
           | OutOfFuel w' => OutOfFuel w'
           end.

Notation "'let*' x ':=' c 'in' k" := (bind c (fun x => k))
  (at level 10, x name, c at level 100, k at level 200).
Notation "'let*' ' pat ':=' c 'in' k" :=
  (bind c (fun x => match x with pat => k end))
  (at level 10, pat pattern, c at level 100, k at level 200).

Definition out_of_fuel {K A} : M K A := fun w => OutOfFuel w.

Definition get_tempReport {K} : M K (list byte) :=
  fun w => Returns (tempReport w) w.

Definition set_tempReport {K} (t : list byte) : M K Datatypes.unit :=
  fun w => Returns tt (mk_World (kernel w) t (trace w)).

Definition emit {K} (e : event) : M K Datatypes.unit :=
  fun w => Returns tt (mk_World (kernel w) (tempReport w) (trace w ++ [e])).

(** A kernel call: run the transition on the kernel state and log it. *)
Definition syscall {K A} (e : event) (f : K -> A * K) : M K A :=
  fun w => let '(a, k) := f (kernel w) in
           Returns a (mk_World k (tempReport w) (trace w ++ [e])).

(** The status (and out values) of a run, if it returns. *)
Definition result_of {K A} (o : outcome K A) : option A :=
  match o with Returns a _ => Some a | OutOfFuel _ => None end.

(** The world a run ends in. *)
Definition world_of {K A} (o : outcome K A) : World K :=
  match o with Returns _ w => w | OutOfFuel w => w end.

(** [report[i]] *)
Definition report_at (report : OakFeatureReport) (i : nat) : byte :=
  nth i report NUL.

(** The aggregate initialiser [{ b0, b1, ... }] of an [OakFeatureReport]:
    the given bytes, the rest of the array zero. *)
Definition report_init (bs : list Z) : OakFeatureReport :=
  take kFeatureReportSize
       (map byte_of_int bs ++ replicate (kFeatureReportSize - length bs) NUL).

(** Modelled from the spec: the header that declares [ChannelInfo] is not
    part of the sources; the fields are those the spec lists and
    [getChannelInfo] assigns ([unit_] stands for the member [unit]). *)
Record ChannelInfo : Type := mk_ChannelInfo {
  channelName : std_string;
  persistentUserChannelName : std_string;
  volatileUserChannelName : std_string;
  isSigned : bool;
  bitSize : Z;
  unitExponent : Z;
  unitCode : Z;
  unit_ : std_string
}.

(** ** The functions of OakHidBase.cpp that talk to the device *)

Section Oak.

Context {K : Type}.
Variable dev : HidDev K.

(** [getStringDescriptor], lines 90-97. [desc.value] is an array of
    [HID_STRING_SIZE] bytes: what the kernel answers is what that array
    holds after the call. *)
Definition getStringDescriptor (deviceHandle index : Z) (outStr : std_string)
  : M K (EOakStatus * std_string) :=
  let* '(r, answer) :=
    syscall (EvGSTRING deviceHandle index) (HIDIOCGSTRING dev deviceHandle index) in
  let desc_value := take HID_STRING_SIZE answer in
  if r <? 0 then ret (eOakStatusInvalidStringDescriptorIndex, outStr)
  else ret (eOakStatusOK, c_str desc_value).

(** [getChannelName], lines 211-214; [4 + channelIndex] is an [int] sum. *)
Definition getChannelName (deviceHandle channelIndex : Z) (outChannelName : std_string)
  : M K (EOakStatus * std_string) :=
  getStringDescriptor deviceHandle (to_int (4 + channelIndex)) outChannelName.

(** [sendFeatureReport], lines 379-397. *)
Definition sendFeatureReport (deviceHandle : Z) (report : OakFeatureReport)
  : M K EOakStatus :=
  let values := map (fun i => int_of_byte (report_at report i))
                    (seq 0 kFeatureReportSize) in
  let* r := syscall (EvSUSAGES deviceHandle values)
                    (HIDIOCSUSAGES dev deviceHandle values) in
  if r =? -1 then ret eOakStatusWriteError
  else
    let* r := syscall (EvSREPORT deviceHandle) (HIDIOCSREPORT dev deviceHandle) in
    if r =? -1 then ret eOakStatusWriteError
    else ret eOakStatusOK.

(** [readFeatureReport], lines 405-422. The final loop assigns every
    index below [kFeatureReportSize], so the array afterwards holds
    exactly the converted values, whatever it held before. *)
Definition readFeatureReport (deviceHandle : Z) (report : OakFeatureReport)
  : M K (EOakStatus * OakFeatureReport) :=
  let* r := syscall (EvGREPORT deviceHandle) (HIDIOCGREPORT dev deviceHandle) in
  if r =? -1 then ret (eOakStatusReadError, report)
  else
    let* '(r, values) :=
      syscall (EvGUSAGES deviceHandle) (HIDIOCGUSAGES dev deviceHandle) in
    if r =? -1 then ret (eOakStatusReadError, report)
    else ret (eOakStatusOK,
              map (fun i => byte_of_int (values i)) (seq 0 kFeatureReportSize)).

(** The first loop of [sendReportAndWaitForReply], lines 454-458: poll
    into the static [tempReport] until byte 0 is 0xff. [fuel] bounds the
    number of iterations. *)
Fixpoint waitReady (fuel : nat) (deviceHandle : Z) : M K EOakStatus :=
  match fuel with
  | O => out_of_fuel
  | S fuel' =>
      let* t := get_tempReport in
      let* '(status, t') := readFeatureReport deviceHandle t in
      let* _ := set_tempReport t' in
      if negb (is_OK status) then ret status
      else if negb (0xff =? int_of_byte (report_at t' 0))
           then waitReady fuel' deviceHandle
           else ret eOakStatusOK
  end.

(** The second loop, lines 464-468: poll into the caller's report. *)
Fixpoint waitReply (fuel : nat) (deviceHandle : Z) (report : OakFeatureReport)
  : M K (EOakStatus * OakFeatureReport) :=
  match fuel with
  | O => out_of_fuel
  | S fuel' =>
      let* '(status, report') := readFeatureReport deviceHandle report in
      if negb (is_OK status) then ret (status, report')
      else if negb (0xff =? int_of_byte (report_at report' 0))
           then waitReply fuel' deviceHandle report'
           else ret (eOakStatusOK, report')
  end.

(** [sendReportAndWaitForReply], lines 449-470; the report is passed in
    and returned as the call leaves it. *)
Definition sendReportAndWaitForReply (fuel : nat) (deviceHandle : Z)
    (report : OakFeatureReport) : M K (EOakStatus * OakFeatureReport) :=
  let* status := waitReady fuel deviceHandle in
  if negb (is_OK status) then ret (status, report)
  else
    let* status := sendFeatureReport deviceHandle report in
    if negb (is_OK status) then ret (status, report)
    else waitReply fuel deviceHandle report.

(** [getUserDeviceName], lines 169-174. The status of the transaction is
    not looked at. *)
Definition getUserDeviceName (fuel : nat) (deviceHandle : Z)
    (outDeviceUserName : std_string) (persistent : bool)
  : M K (EOakStatus * std_string) :=
  let report := report_init [1; if persistent then 1 else 0; 0x15; 0; 0] in
  let* '(_, report) := sendReportAndWaitForReply fuel deviceHandle report in
  let '(status, _, outString) := getStringFromReport report outDeviceUserName in
  ret (status, outString).

(** [getUserChannelName], lines 225-231. *)
Definition getUserChannelName (fuel : nat) (deviceHandle channelIndex : Z)
    (outUserChannelName : std_string) (persistent : bool)
  : M K (EOakStatus * std_string) :=
  let report :=
    report_init [1; if persistent then 1 else 0; 0x15; to_uchar channelIndex; 0] in
  let* '(_, report) := sendReportAndWaitForReply fuel deviceHandle report in
  let '(status, _, outString) := getStringFromReport report outUserChannelName in
  ret (status, outString).

(** [getFieldInfo], lines 242-251. The kernel hands back the structure as
    it is after the call, also when the call fails. *)
Definition getFieldInfo (deviceHandle channelIndex : Z) (finfo : hiddev_field_info)
  : M K (EOakStatus * hiddev_field_info) :=
  let finfo1 :=
    mk_field_info HID_REPORT_TYPE_INPUT HID_REPORT_ID_FIRST (to_uint channelIndex)
      (maxusage finfo) (flags finfo) (physical finfo) (logical finfo)
      (application finfo) (logical_minimum finfo) (logical_maximum finfo)
      (physical_minimum finfo) (physical_maximum finfo)
      (unit_exponent finfo) (unit finfo) in
  let* '(r, finfo2) :=
    syscall (EvGFIELDINFO deviceHandle finfo1)
            (HIDIOCGFIELDINFO dev deviceHandle finfo1) in
  if r <? 0 then ret (eOakStatusInternalError, finfo2)
  else ret (eOakStatusOK, finfo2).

(** The part of [getFieldUnit] after the name query, lines 311-318: the
    status and the out string for a given channel name. *)
Definition getFieldUnit_parse (name outFieldUnit : std_string)
  : EOakStatus * std_string :=
  let begin := to_int (rfind name "[") in
  if begin =? to_int npos then (eOakStatusInternalError, outFieldUnit)
  else
    let begin := to_int (begin + 1) in
    let end_ := to_int (rfind name "]") in
    if end_ =? to_int npos then (eOakStatusInternalError, outFieldUnit)
    else if end_ <=? begin then (eOakStatusInternalError, outFieldUnit)
    else (eOakStatusOK, substr name begin (to_int (end_ - begin))).

(** [getFieldUnit], lines 303-319. *)
Definition getFieldUnit (deviceHandle channelIndex : Z) (outFieldUnit : std_string)
  : M K (EOakStatus * std_string) :=
  let* '(status, name) := getChannelName deviceHandle channelIndex [] in
  if negb (is_OK status) then ret (status, outFieldUnit)
  else ret (getFieldUnit_parse name outFieldUnit).

(** [getChannelInfo], lines 328-342. [finfo] is the content of the
    uninitialised local before [getFieldInfo] fills it. *)
Definition getChannelInfo (fuel : nat) (deviceHandle channelIndex : Z)
    (outChannelInfo : ChannelInfo) (finfo : hiddev_field_info)
  : M K (EOakStatus * ChannelInfo) :=
  let* '(status, name) :=
    getChannelName deviceHandle channelIndex (channelName outChannelInfo) in
  let info1 :=
    mk_ChannelInfo name (persistentUserChannelName outChannelInfo)
      (volatileUserChannelName outChannelInfo) (isSigned outChannelInfo)
      (bitSize outChannelInfo) (unitExponent outChannelInfo)
      (unitCode outChannelInfo) (unit_ outChannelInfo) in
  if negb (is_OK status) then ret (status, info1)
  else
    let* '(_, pname) :=
      getUserChannelName fuel deviceHandle channelIndex
        (persistentUserChannelName info1) true in
    let* '(_, vname) :=
      getUserChannelName fuel deviceHandle channelIndex
        (volatileUserChannelName info1) false in
    let* '(_, finfo') := getFieldInfo deviceHandle channelIndex finfo in
    let* '(status, unit_name) :=
      getFieldUnit deviceHandle channelIndex (unit_ info1) in
    ret (status,
         mk_ChannelInfo name pname vname (isFieldSigned finfo')
           (getFieldBitSize finfo') (getFieldExponent finfo')
           (unit finfo') unit_name).

(** [v.resize(n)] on a [std::vector<int>]: keep the first [n] elements,
    pad with zeros. *)
Definition resize (n : Z) (v : list Z) : list Z :=
  take (Z.to_nat n) v ++ replicate (Z.to_nat n - length v) 0.

(** [readInterruptReport], lines 359-371. [ev i] is the i-th element of
    the static event array after the read. *)
Definition readInterruptReport (deviceHandle : Z) (outReadValues : list Z)
  : M K (EOakStatus * list Z) :=
  let* '(rd, ev) :=
    syscall (EvRead deviceHandle sizeof_ev) (sys_read dev deviceHandle sizeof_ev) in
  let rd := to_int rd in
  if rd <? sizeof_event then ret (eOakStatusReadError, outReadValues)
  else
    let kCount := to_int (rd / sizeof_event) in
    let* v :=
      if negb (kCount =? to_int (Z.of_nat (length outReadValues)))
      then let* _ := emit (EvResize kCount) in ret (resize kCount outReadValues)
      else ret outReadValues in
    ret (eOakStatusOK,
         foldl (fun v i => <[i := value (ev i)]> v) v (seq 0 (Z.to_nat kCount))).

End Oak.

(** ** Vocabulary of the statements *)

(** [i] is the index of the last occurrence of [c] in [s]. *)
Definition last_occ (c : byte) (s : std_string) (i : nat) : Prop :=
  s !! i = Some c /\ forall j, (i < j)%nat -> s !! j <> Some c.

(** The values that [sendFeatureReport] hands to the kernel for a report:
    its bytes, index by index. *)
Definition report_values (report : OakFeatureReport) : list Z :=
  map (fun i => int_of_byte (report_at report i)) (seq 0 kFeatureReportSize).

(** The report that [readFeatureReport] builds from the kernel's values. *)
Definition report_of_values (values : nat -> Z) : OakFeatureReport :=
  map (fun i => byte_of_int (values i)) (seq 0 kFeatureReportSize).

(** Every read of the feature report succeeds and shows 0xff in byte 0. *)
Definition always_ready {K} (dev : HidDev K) : Prop :=
  forall h k,
    fst (HIDIOCGREPORT dev h k) <> -1 /\
    fst (fst (HIDIOCGUSAGES dev h k)) <> -1 /\
    to_uchar (snd (fst (HIDIOCGUSAGES dev h k)) 0%nat) = 0xff.

(** Both kernel calls of [sendFeatureReport] succeed. *)
Definition send_succeeds {K} (dev : HidDev K) : Prop :=
  forall h k,
    (forall values, fst (HIDIOCSUSAGES dev h values k) <> -1) /\
    fst (HIDIOCSREPORT dev h k) <> -1.

(** The events of a trace that hand a report to the device. *)
Definition is_send (e : event) : bool :=
  match e with EvSUSAGES _ _ => true | _ => false end.

Definition is_poll (e : event) : bool :=
  match e with EvGREPORT _ | EvGUSAGES _ => true | _ => false end.

Definition polls_only (tr : list event) : Prop :=
  Forall (fun e => is_poll e = true) tr.

Definition no_send (tr : list event) : Prop :=
  Forall (fun e => is_send e = false) tr.

(** Two devices that differ at most in what the field-descriptor query
    answers (return value and structure); its effect on the kernel state
    and every other call are the same. *)
Definition same_but_fieldinfo {K} (d1 d2 : HidDev K) : Prop :=
  HIDIOCGSTRING d1 = HIDIOCGSTRING d2 /\
  HIDIOCGREPORT d1 = HIDIOCGREPORT d2 /\
  HIDIOCGUSAGES d1 = HIDIOCGUSAGES d2 /\
  HIDIOCSUSAGES d1 = HIDIOCSUSAGES d2 /\
  HIDIOCSREPORT d1 = HIDIOCSREPORT d2 /\
  sys_read d1 = sys_read d2 /\
  forall h f k, snd (HIDIOCGFIELDINFO d1 h f k) = snd (HIDIOCGFIELDINFO d2 h f k).

(** The width that the spec assigns to a physical range. *)
Definition width_of_range (range : Z) : Z :=
  if range <=? 0xff then 8
  else if range <=? 0xffff then 16
  else if range <=? 0xffffffff then 32
  else 64.

(** ** Simulated devices *)

Module Sim.

(** A stateless device: every call answers the same, the kernel state
    counts the calls made. *)
Record answers : Type := mk_answers {
  string_ret : Z;
  string_value : list byte;
  fieldinfo_ret : Z;
  fieldinfo_value : hiddev_field_info;
  greport_ret : Z;
  gusages_ret : Z;
  gusages_values : nat -> Z;
  susages_ret : Z;
  sreport_ret : Z;
  read_ret : Z;
  read_events : nat -> hiddev_event
}.

Definition device (a : answers) : HidDev nat :=
  mk_HidDev nat
    (fun _ _ k => (string_ret a, string_value a, S k))
    (fun _ _ k => (fieldinfo_ret a, fieldinfo_value a, S k))
    (fun _ k => (greport_ret a, S k))
    (fun _ k => (gusages_ret a, gusages_values a, S k))
    (fun _ _ k => (susages_ret a, S k))
    (fun _ k => (sreport_ret a, S k))
    (fun _ _ k => (read_ret a, read_events a, S k)).

Definition temperature_field : hiddev_field_info :=
  mk_field_info 1 0x100 0 1 2 0 0 0 (-4000) 12500 (-4000) 12500 14 0x10001.

(** A field whose physical range spans all of [__s32]. *)
Definition full_range_field : hiddev_field_info :=
  mk_field_info 1 0x100 0 1 2 0 0 0 (-2147483648) 2147483647
    (-2147483648) 2147483647 0 0.

(** An idle, healthy temperature sensor: byte 0 of every feature report is
    0xff, bytes 1.. spell "Oak", two events are streamed per read. *)
Definition healthy : answers :=
  mk_answers 0 (str "Temperature [°C]" ++ replicate 8 NUL)
    0 temperature_field
    0 0 (fun i => nth i [255; 79; 97; 107] 0)
    0 0
    16 (fun i => mk_event 0 (nth i [2315; -40] 0)).

(** The same sensor refusing the field-descriptor query. *)
Definition no_fieldinfo : answers :=
  mk_answers 0 (string_value healthy) (-1) (fieldinfo_value healthy)
    0 0 (gusages_values healthy) 0 0 16 (read_events healthy).

(** The same sensor failing every read of the feature report. *)
Definition unreadable : answers :=
  mk_answers 0 (string_value healthy) 0 temperature_field
    (-1) 0 (gusages_values healthy) 0 0 16 (read_events healthy).

(** The same sensor refusing the usage values of an outgoing report. *)
Definition unwritable : answers :=
  mk_answers 0 (string_value healthy) 0 temperature_field
    0 0 (gusages_values healthy) (-1) 0 16 (read_events healthy).

(** A sensor whose channel name carries an empty pair of brackets. *)
Definition empty_unit : answers :=
  mk_answers 0 (str "[]" ++ [NUL]) 0 temperature_field
    0 0 (gusages_values healthy) 0 0 16 (read_events healthy).

(** A sensor whose read returns half an event. *)
Definition short_read : answers :=
  mk_answers 0 (string_value healthy) 0 temperature_field
    0 0 (gusages_values healthy) 0 0 4 (read_events healthy).

(** The command report of [getUserDeviceName] with [persistent] set. *)
Definition name_query : OakFeatureReport := report_init [1; 1; 0x15; 0; 0].

Definition boot : World nat := mk_World 0%nat (replicate kFeatureReportSize NUL) [].

Definition blank_info : ChannelInfo := mk_ChannelInfo [] [] [] false 0 0 0 [].

End Sim.

(** * The rest of OakHidBase.cpp *)

(** ** Opening and describing a device *)

(** struct hiddev_devinfo of linux/hiddev.h; [vendor], [product] and
    [version] are [__s16], the other members [__u32]. *)
Record hiddev_devinfo : Type := mk_devinfo {
  bustype : Z;
  busnum : Z;
  devnum : Z;
  ifnum : Z;
  vendor : Z;
  product : Z;
  version : Z;
  num_applications : Z
}.

(** Modelled from the spec: the header that declares [DeviceInfo] is not
    part of the sources; the fields are those the spec lists and
    [getDeviceInfo] assigns ([version_] stands for the member [version]). *)
Record DeviceInfo : Type := mk_DeviceInfo {
  vendorID : Z;
  productID : Z;
  version_ : Z;
  deviceName : std_string;
  persistentUserDeviceName : std_string;
  volatileUserDeviceName : std_string;
  serialNumber : std_string;
  numberOfChannels : Z
}.

(** The size of the name buffer of [getDeviceName] ([kBufferSize]). *)
Definition kBufferSize : nat := 256.

(** The kernel calls of the functions that open, close and describe a
    device, in the style of [HidDev]: [open] and [close] on the device
    file and four more hiddev requests. [HIDIOCGDEVINFO] takes the
    structure as it is before the call and gives it as it is after. *)
Record HidSys (K : Type) : Type := mk_HidSys {
  sys_open : std_string -> K -> Z * K;
  sys_close : Z -> K -> Z * K;
  HIDIOCINITREPORT : Z -> K -> Z * K;
  HIDIOCGDEVINFO : Z -> hiddev_devinfo -> K -> Z * hiddev_devinfo * K;
  HIDIOCGNAME : Z -> K -> Z * list byte * K;
  HIDIOCGREPORTINFO : Z -> Z -> Z -> K -> Z * Z * K
}.

Arguments sys_open {K}.
Arguments sys_close {K}.
Arguments HIDIOCINITREPORT {K}.
Arguments HIDIOCGDEVINFO {K}.
Arguments HIDIOCGNAME {K}.
Arguments HIDIOCGREPORTINFO {K}.

(** A kernel call of [HidSys]: run the transition on the kernel state. *)
Definition kcall {K A} (f : K -> A * K) : M K A :=
  fun w => let '(a, k) := f (kernel w) in
           Returns a (mk_World k (tempReport w) (trace w)).

Section OakDevice.

Context {K : Type}.
Variable dev : HidDev K.
Variable sys : HidSys K.

(** The vendor identifier of Toradex; the constant is defined in the
    header, which is not part of the sources. *)
Variable kToradexVendorID : Z.

(** [closeDevice], lines 61-64. *)
Definition closeDevice (deviceHandle : Z) : M K EOakStatus :=
  let* r := kcall (sys_close sys deviceHandle) in
  ret (if 0 =? r then eOakStatusOK else eOakStatusInternalError).

(** [openDevice], lines 33-54; returns the status and [outDeviceHandle].
    [devInfo] is the content of the uninitialised local before
    [HIDIOCGDEVINFO] fills it; the return value of that call is not
    looked at. *)
Definition openDevice (devicePath : std_string) (devInfo : hiddev_devinfo)
  : M K (EOakStatus * Z) :=
  let* outDeviceHandle := kcall (sys_open sys devicePath) in
  if outDeviceHandle <? 0 then ret (eOakStatusErrorOpeningFile, outDeviceHandle)
  else
    let* r := kcall (HIDIOCINITREPORT sys outDeviceHandle) in
    if r <? 0 then
      let* _ := kcall (sys_close sys outDeviceHandle) in
      ret (eOakStatusInternalError, outDeviceHandle)
    else
      let* '(_, devInfo') := kcall (HIDIOCGDEVINFO sys outDeviceHandle devInfo) in
      if negb (kToradexVendorID =? vendor devInfo') then
        let* _ := closeDevice outDeviceHandle in
        ret (eOakStatusInvalidDeviceType, outDeviceHandle)
      else ret (eOakStatusOK, outDeviceHandle).

(** [getDeviceName], lines 72-79. *)
Definition getDeviceName (deviceHandle : Z) (outName : std_string)
  : M K (EOakStatus * std_string) :=
  let* '(r, answer) := kcall (HIDIOCGNAME sys deviceHandle) in
  let buffer := take kBufferSize answer in
  if r <? 0 then ret (eOakStatusInternalError, outName)
  else ret (eOakStatusOK, c_str buffer).

(** [getDeviceSerialNumber], lines 105-108. *)
Definition getDeviceSerialNumber (deviceHandle : Z) (outDeviceSerial : std_string)
  : M K (EOakStatus * std_string) :=
  getStringDescriptor dev deviceHandle 3 outDeviceSerial.

(** [getNumberOfChannels], lines 118-126; [num_fields] is a [__u32]
    assigned to an [int]. *)
Definition getNumberOfChannels (deviceHandle : Z) (outChannelCount : Z)
  : M K (EOakStatus * Z) :=
  let* '(r, num_fields) :=
    kcall (HIDIOCGREPORTINFO sys deviceHandle
             HID_REPORT_TYPE_INPUT HID_REPORT_ID_FIRST) in
  if r <? 0 then ret (eOakStatusInternalError, outChannelCount)
  else ret (eOakStatusOK, to_int num_fields).

(** [getDeviceInfo], lines 182-200. *)
Definition getDeviceInfo (fuel : nat) (deviceHandle : Z)
    (outDeviceInfo : DeviceInfo) (devInfo : hiddev_devinfo)
  : M K (EOakStatus * DeviceInfo) :=
  let* '(r, devInfo') := kcall (HIDIOCGDEVINFO sys deviceHandle devInfo) in
  if r <? 0 then ret (eOakStatusInternalError, outDeviceInfo)
  else
    let* '(status, name) := getDeviceName deviceHandle (deviceName outDeviceInfo) in
    let info1 :=
      mk_DeviceInfo (vendor devInfo') (product devInfo') (version devInfo')
        name (persistentUserDeviceName outDeviceInfo)
        (volatileUserDeviceName outDeviceInfo) (serialNumber outDeviceInfo)
        (numberOfChannels outDeviceInfo) in
    if negb (is_OK status) then ret (status, info1)
    else
      let* '(status, pname) :=
        getUserDeviceName dev fuel deviceHandle
          (persistentUserDeviceName info1) true in
      let info2 :=
        mk_DeviceInfo (vendorID info1) (productID info1) (version_ info1)
          (deviceName info1) pname (volatileUserDeviceName info1)
          (serialNumber info1) (numberOfChannels info1) in
      if negb (is_OK status) then ret (status, info2)
      else
        let* '(status, vname) :=
          getUserDeviceName dev fuel deviceHandle
            (volatileUserDeviceName info2) false in
        let info3 :=
          mk_DeviceInfo (vendorID info2) (productID info2) (version_ info2)
            (deviceName info2) (persistentUserDeviceName info2) vname
            (serialNumber info2) (numberOfChannels info2) in
        if negb (is_OK status) then ret (status, info3)
        else
          let* '(status, serial) :=
            getDeviceSerialNumber deviceHandle (serialNumber info3) in
          let info4 :=
            mk_DeviceInfo (vendorID info3) (productID info3) (version_ info3)
              (deviceName info3) (persistentUserDeviceName info3)
              (volatileUserDeviceName info3) serial (numberOfChannels info3) in
          if negb (is_OK status) then ret (status, info4)
          else
            let* '(status, count) :=
              getNumberOfChannels deviceHandle (numberOfChannels info4) in
            ret (status,
                 mk_DeviceInfo (vendorID info4) (productID info4) (version_ info4)
                   (deviceName info4) (persistentUserDeviceName info4)
                   (volatileUserDeviceName info4) (serialNumber info4) count).

End OakDevice.

(** [getStatusString], lines 477-490. The [default] case is for values
    outside the enumeration. *)
Definition getStatusString (statusCode : EOakStatus) : std_string :=
  match statusCode with
  | eOakStatusOK => str "No error"
  | eOakStatusErrorOpeningFile => str "The device could not be opened"
  | eOakStatusInvalidDeviceType => str "The device is not an Oak sensor"
  | eOakStatusInternalError => str "Internal error"
  | eOakStatusInvalidStringDescriptorIndex => str "Invalid string descriptor index"
  | eOakStatusReadError => str "Read error"
  | eOakStatusWriteError => str "Write error"
  end.

(** ** Vocabulary of the further statements *)

(** Every read of the feature report succeeds and shows a byte 0 other
    than 0xff. *)
Definition never_ready {K} (dev : HidDev K) : Prop :=
  forall h k,
    fst (HIDIOCGREPORT dev h k) <> -1 /\
    fst (fst (HIDIOCGUSAGES dev h k)) <> -1 /\
    to_uchar (snd (fst (HIDIOCGUSAGES dev h k)) 0%nat) <> 0xff.

(** The calls of [HidSys], as a log keeps them. *)
Inductive sys_call : Type :=
| CallOpen (path : std_string)
| CallClose (h : Z)
| CallInitReport (h : Z)
| CallGDevInfo (h : Z)
| CallGName (h : Z)
| CallGReportInfo (h : Z).

(** A system that keeps a log of the calls made, next to the kernel state
    of the system it wraps; the answers are those of the wrapped system. *)
Definition logged {K} (sys : HidSys K) : HidSys (K * list sys_call) :=
  mk_HidSys (K * list sys_call)
    (fun path s =>
       let '(r, k) := sys_open sys path (fst s) in (r, (k, snd s ++ [CallOpen path])))
    (fun h s =>
       let '(r, k) := sys_close sys h (fst s) in (r, (k, snd s ++ [CallClose h])))
    (fun h s =>
       let '(r, k) := HIDIOCINITREPORT sys h (fst s) in
       (r, (k, snd s ++ [CallInitReport h])))
    (fun h d s =>
       let '(r, d', k) := HIDIOCGDEVINFO sys h d (fst s) in
       (r, d', (k, snd s ++ [CallGDevInfo h])))
    (fun h s =>
       let '(r, b, k) := HIDIOCGNAME sys h (fst s) in
       (r, b, (k, snd s ++ [CallGName h])))
    (fun h t i s =>
       let '(r, n, k) := HIDIOCGREPORTINFO sys h t i (fst s) in
       (r, n, (k, snd s ++ [CallGReportInfo h]))).

(** * Rotor flags (rig/rotor.cpp) *)

Module Rotor.

(** [TRotor::enable], lines 166-170, as a function of the flags word.
    [R_ROTOR_ENABLE] is defined in rotor.h, which is not part of the
    sources. *)
Definition enable (R_ROTOR_ENABLE : Z) (flags : Z) (enable : bool) : Z :=
  let flags := Z.land flags (Z.lnot R_ROTOR_ENABLE) in
  Z.lor flags (if enable then R_ROTOR_ENABLE else 0).

(** [TRotor::parkingEnabled(bool)], lines 189-193. *)
Definition parkingEnabled (R_ROTOR_PARK : Z) (flags : Z) (park : bool) : Z :=
  let flags := Z.land flags (Z.lnot R_ROTOR_PARK) in
  Z.lor flags (if park then R_ROTOR_PARK else 0).

End Rotor.

(** ** Further simulated devices *)

Module Sim2.


(** A device that answers every read of the feature report with a zero
    report, forever. *)
Definition stuck : HidDev nat :=
  mk_HidDev nat
    (fun _ _ k => (0, [NUL], S k))
    (fun _ f k => (0, f, S k))
    (fun _ k => (0, S k))
    (fun _ k => (0, (fun _ => 0), S k))
    (fun _ _ k => (0, S k))
    (fun _ k => (0, S k))
    (fun _ _ k => (0, (fun _ => mk_event 0 0), S k)).

Definition toradex : Z := 0x1b67.

Definition blank_devinfo : hiddev_devinfo := mk_devinfo 0 0 0 0 0 0 0 0.

(** A system whose calls all succeed on a device of the given vendor; the
    file descriptor handed out is 3. *)
Definition system (vendor_id : Z) (init_ret : Z) : HidSys nat :=
  mk_HidSys nat
    (fun _ k => (3, S k))
    (fun _ k => (0, S k))
    (fun _ k => (init_ret, S k))
    (fun _ d k => (0, mk_devinfo 3 1 4 0 vendor_id 10 0x100 1, S k))
    (fun _ k => (0, str "Toradex Oak" ++ [NUL], S k))
    (fun _ _ _ k => (0, 2, S k)).

(** The same system with a device-information query that fails and
    leaves the structure as it found it. *)
Definition system_noinfo : HidSys nat :=
  mk_HidSys nat
    (fun _ k => (3, S k))
    (fun _ k => (0, S k))
    (fun _ k => (0, S k))
    (fun _ d k => (-1, d, S k))
    (fun _ k => (0, str "Toradex Oak" ++ [NUL], S k))
    (fun _ _ _ k => (0, 2, S k)).

(** Stack content that happens to carry the vendor identifier. *)
Definition lucky_devinfo : hiddev_devinfo := mk_devinfo 9 9 9 9 toradex 9 9 9.

Definition boot : World (nat * list sys_call) :=
  mk_World (0%nat, []) (replicate kFeatureReportSize NUL) [].

Definition blank_device_info : DeviceInfo := mk_DeviceInfo 0 0 0 [] [] [] [] 0.

End Sim2.

(** * Properties *)

(** ** Machine integers *)

Lemma to_int_id z : in_int z -> to_int z = z.
Proof.
  unfold in_int, INT_MIN, INT_MAX, to_int. intros Hz.
  rewrite Z.mod_small by lia. lia.
Qed.

Lemma to_int_range z : in_int (to_int z).
Proof.
  unfold in_int, INT_MIN, INT_MAX, to_int.
  pose proof (Z.mod_pos_bound (z + 2 ^ 31) (2 ^ 32)). lia.
Qed.

Lemma to_int_npos : to_int npos = -1.
Proof. reflexivity. Qed.

Lemma in_int_of_nat (n : nat) : Z.of_nat n <= INT_MAX -> in_int (Z.of_nat n).
Proof. unfold in_int, INT_MIN, INT_MAX. lia. Qed.

Lemma int_of_byte_range b : 0 <= int_of_byte b < 256.
Proof.
  unfold int_of_byte. pose proof (N_ascii_bounded b). lia.
Qed.

Lemma byte_of_int_of_byte b : byte_of_int (int_of_byte b) = b.
Proof.
  unfold byte_of_int, to_uchar. pose proof (int_of_byte_range b).
  rewrite Z.mod_small by lia. unfold int_of_byte.
  rewrite N2Z.id. apply ascii_N_embedding.
Qed.

Lemma int_of_byte_of_int z : int_of_byte (byte_of_int z) = to_uchar z.
Proof.
  unfold byte_of_int, int_of_byte, to_uchar.
  pose proof (Z.mod_pos_bound z 256).
  rewrite N_ascii_embedding by lia. lia.
Qed.

(** ** Metadata decoder *)

Lemma getFieldExponent_low finfo :
  0 <= unit_exponent finfo < 8 -> getFieldExponent finfo = unit_exponent finfo.
Proof.
  intros H. unfold getFieldExponent.
  destruct (Z.leb_spec 8 (unit_exponent finfo)); [lia|].
  apply to_int_id. unfold in_int, INT_MIN, INT_MAX. lia.
Qed.

Lemma getFieldExponent_high finfo :
  8 <= unit_exponent finfo < 2 ^ 31 + 16 ->
  getFieldExponent finfo = unit_exponent finfo - 16.
Proof.
  intros H. unfold getFieldExponent, to_uint, to_int.
  destruct (Z.leb_spec 8 (unit_exponent finfo)); [|lia].
  set (e := unit_exponent finfo) in *.
  destruct (Z_lt_le_dec e 16) as [Hlt|Hge].
  - replace ((e - 16) mod 2 ^ 32) with (e - 16 + 2 ^ 32)
      by (apply Z.mod_unique with (q := -1); lia).
    replace ((e - 16 + 2 ^ 32 + 2 ^ 31) mod 2 ^ 32) with (e - 16 + 2 ^ 31)
      by (apply Z.mod_unique with (q := 1); lia).
    lia.
  - rewrite (Z.mod_small (e - 16)) by lia.
    rewrite Z.mod_small by lia. lia.
Qed.

(** C4. For a raw unit exponent in 0..15, [getFieldExponent] gives
    [raw - 16] when [raw >= 8] and [raw] itself below 8; raw 0 gives 0,
    raw 7 gives 7, raw 8 gives -8 and raw 15 gives -1. *)
Theorem getFieldExponent_nibble (finfo : hiddev_field_info) :
  0 <= unit_exponent finfo <= 15 ->
  getFieldExponent finfo =
    (if 8 <=? unit_exponent finfo then unit_exponent finfo - 16
     else unit_exponent finfo)
  /\ (unit_exponent finfo = 0 -> getFieldExponent finfo = 0)
  /\ (unit_exponent finfo = 7 -> getFieldExponent finfo = 7)
  /\ (unit_exponent finfo = 8 -> getFieldExponent finfo = -8)
  /\ (unit_exponent finfo = 15 -> getFieldExponent finfo = -1).
Proof.
  intros Hraw.
  assert (Hgen : getFieldExponent finfo =
    (if 8 <=? unit_exponent finfo then unit_exponent finfo - 16
     else unit_exponent finfo)).
  { destruct (Z.leb_spec 8 (unit_exponent finfo)).
    - apply getFieldExponent_high. lia.
    - apply getFieldExponent_low. lia. }
  split; [exact Hgen|].
  repeat split; intros Heq; rewrite Hgen, Heq; reflexivity.
Qed.

Lemma getFieldExponent_nibble_witness :
  0 <= unit_exponent Sim.temperature_field <= 15 /\
  getFieldExponent Sim.temperature_field = -2.
Proof.
  split; [simpl; lia|].
  destruct (getFieldExponent_nibble Sim.temperature_field) as [H _];
    [simpl; lia|]. exact H.
Defined.

Lemma getFieldBitSize_no_overflow finfo :
  in_int (physical_maximum finfo - physical_minimum finfo) ->
  getFieldBitSize finfo =
    width_of_range (physical_maximum finfo - physical_minimum finfo).
Proof.
  intros H. unfold getFieldBitSize. rewrite (to_int_id _ H). reflexivity.
Qed.

Lemma getFieldBitSize_never_64 finfo : getFieldBitSize finfo <> 64.
Proof.
  unfold getFieldBitSize.
  pose proof (to_int_range (physical_maximum finfo - physical_minimum finfo)) as Hr.
  unfold in_int, INT_MIN, INT_MAX in Hr.
  repeat match goal with
         | |- context [?a <=? ?b] => destruct (Z.leb_spec a b)
         end; lia.
Qed.

(** C5. The field whose physical range is 4294967295 (minimum -2147483648,
    maximum 2147483647) is well formed and the spec's rule gives it 32
    bits, yet [getFieldBitSize] answers 8: the difference is taken in
    32-bit arithmetic and has wrapped to -1 before it is widened. *)
Theorem getFieldBitSize_full_range :
  field_info_wf Sim.full_range_field
  /\ physical_maximum Sim.full_range_field
     - physical_minimum Sim.full_range_field = 4294967295
  /\ width_of_range 4294967295 = 32
  /\ getFieldBitSize Sim.full_range_field = 8.
Proof.
  unfold field_info_wf, in_int, INT_MIN, INT_MAX. simpl.
  repeat split; try lia; reflexivity.
Qed.

(** ** Report codec *)

Lemma substr_0_length (s : std_string) (n : nat) :
  substr s 0 (Z.of_nat n) = take n s.
Proof. unfold substr. simpl. rewrite Nat2Z.id. reflexivity. Qed.

Lemma putStringInReport_payload (report : OakFeatureReport) (theString : std_string) :
  snd (putStringInReport report theString)
  = memcpy_at report 5 (take 20 theString).
Proof.
  unfold putStringInReport. simpl.
  destruct (Z.ltb_spec 20 (Z.of_nat (length theString))) as [Hlong|Hshort].
  - change 20 with (Z.of_nat 20). rewrite substr_0_length. reflexivity.
  - rewrite take_ge by lia. reflexivity.
Qed.

(** C6. [putStringInReport] writes the first min(length, 20) bytes of the
    string at offsets 5 onward, leaves every byte outside the written range
    (in particular outside offsets 5..24) as it was, and returns OK. *)
Theorem putStringInReport_frame (report : OakFeatureReport) (theString : std_string) :
  well_sized report ->
  let n := Nat.min (length theString) 20 in
  let report' := snd (putStringInReport report theString) in
  fst (putStringInReport report theString) = eOakStatusOK
  /\ well_sized report'
  /\ (forall i, (i < n)%nat -> report' !! (5 + i)%nat = theString !! i)
  /\ (forall j, (j < 5 \/ 5 + n <= j)%nat -> report' !! j = report !! j)
  /\ (forall j, (j < 5 \/ 24 < j)%nat -> report' !! j = report !! j).
Proof.
  intros Hsz n report'. subst report'.
  rewrite putStringInReport_payload. unfold memcpy_at, well_sized in *.
  assert (Hn : length (take 20 theString) = n) by (rewrite length_take; lia).
  split; [reflexivity|].
  split; [rewrite length_inserts; exact Hsz|].
  assert (Hframe : forall j, (j < 5 \/ 5 + n <= j)%nat ->
            list_inserts 5 (take 20 theString) report !! j = report !! j).
  { intros j [Hlo|Hhi].
    - apply list_lookup_inserts_lt. exact Hlo.
    - apply list_lookup_inserts_ge. lia. }
  split; [|split; [exact Hframe|]].
  - intros i Hi.
    rewrite list_lookup_inserts.
    + replace (5 + i - 5)%nat with i by lia.
      apply lookup_take_lt. lia.
    + lia.
    + rewrite Hsz. unfold kFeatureReportSize. lia.
  - intros j Hj. apply Hframe. lia.
Qed.

Lemma putStringInReport_frame_witness :
  well_sized (report_init [1; 0; 0x15; 0; 0])
  /\ snd (putStringInReport (report_init [1; 0; 0x15; 0; 0])
            (str "abcdefghijklmnopqrstuvwxyz")) !! 24%nat = Some "t"%char
  /\ snd (putStringInReport (report_init [1; 0; 0x15; 0; 0])
            (str "abcdefghijklmnopqrstuvwxyz")) !! 25%nat = Some NUL.
Proof.
  assert (Hsz : well_sized (report_init [1; 0; 0x15; 0; 0])) by reflexivity.
  split; [exact Hsz|].
  destruct (putStringInReport_frame (report_init [1; 0; 0x15; 0; 0])
              (str "abcdefghijklmnopqrstuvwxyz") Hsz) as (_ & _ & Hw & _ & Hf).
  split.
  - assert (H19 : (19 < Nat.min (length (str "abcdefghijklmnopqrstuvwxyz")) 20)%nat)
      by (vm_compute; lia).
    exact (eq_trans (Hw 19%nat H19) eq_refl).
  - assert (H25 : (25 < 5 \/ 24 < 25)%nat) by lia.
    exact (eq_trans (Hf 25%nat H25) eq_refl).
Defined.

Lemma is_NUL_true b : is_NUL b = true <-> b = NUL.
Proof. unfold is_NUL. apply Ascii.eqb_eq. Qed.

Lemma c_str_length_le (buf : list byte) (n : nat) :
  buf !! n = Some NUL -> (length (c_str buf) <= n)%nat.
Proof.
  revert n. induction buf as [|b buf IH]; intros n Hn; simpl.
  - lia.
  - destruct (is_NUL b) eqn:Hb; simpl; [lia|].
    destruct n as [|n]; simpl in Hn.
    + injection Hn as ->. discriminate Hb.
    + specialize (IH n Hn). lia.
Qed.

Lemma c_str_lookup (buf : list byte) (i : nat) :
  (i < length (c_str buf))%nat -> c_str buf !! i = buf !! i.
Proof.
  revert i. induction buf as [|b buf IH]; intros i Hi; simpl in *.
  - lia.
  - destruct (is_NUL b); simpl in *; [lia|].
    destruct i as [|i]; simpl; [reflexivity|]. apply IH. lia.
Qed.

Lemma c_str_terminated (buf : list byte) :
  (length (c_str buf) < length buf)%nat ->
  buf !! length (c_str buf) = Some NUL.
Proof.
  induction buf as [|b buf IH]; simpl; intros Hlen.
  - lia.
  - destruct (is_NUL b) eqn:Hb; simpl in *.
    + apply is_NUL_true in Hb. rewrite Hb. reflexivity.
    + apply IH. lia.
Qed.

Lemma c_str_no_NUL (buf : list byte) : NUL ∉ c_str buf.
Proof.
  induction buf as [|b buf IH]; simpl.
  - apply not_elem_of_nil.
  - destruct (is_NUL b) eqn:Hb.
    + apply not_elem_of_nil.
    + apply not_elem_of_cons. split; [|exact IH].
      intros Heq. symmetry in Heq. apply is_NUL_true in Heq. congruence.
Qed.

(** C9. [getStringFromReport] sets byte 21 of the report to 0 and leaves
    every other byte as it was; it returns OK; the string it extracts is
    the run of bytes from offset 1 up to the first NUL, and so has at most
    20 characters. *)
Theorem getStringFromReport_bounded (report : OakFeatureReport) (outString : std_string) :
  well_sized report ->
  let status := fst (fst (getStringFromReport report outString)) in
  let report' := snd (fst (getStringFromReport report outString)) in
  let s := snd (getStringFromReport report outString) in
  status = eOakStatusOK
  /\ well_sized report'
  /\ report' !! 21%nat = Some NUL
  /\ (forall j, j <> 21%nat -> report' !! j = report !! j)
  /\ (length s <= 20)%nat
  /\ (NUL ∉ s)
  /\ (forall i, (i < length s)%nat -> s !! i = report !! (1 + i)%nat)
  /\ report' !! (1 + length s)%nat = Some NUL.
Proof.
  intros Hsz status report' s. subst status report' s. simpl.
  unfold well_sized, kFeatureReportSize in *.
  assert (H21 : <[21%nat:=NUL]> report !! 21%nat = Some NUL)
    by (apply list_lookup_insert_eq; lia).
  assert (Hlen : (length (c_str (drop 1 (<[21%nat:=NUL]> report))) <= 20)%nat).
  { apply c_str_length_le. rewrite lookup_drop. exact H21. }
  split; [reflexivity|].
  split; [rewrite length_insert; exact Hsz|].
  split; [exact H21|].
  split; [intros j Hj; apply list_lookup_insert_ne; congruence|].
  split; [exact Hlen|].
  split; [apply c_str_no_NUL|].
  split.
  - intros i Hi. rewrite c_str_lookup by exact Hi.
    rewrite lookup_drop. apply list_lookup_insert_ne. lia.
  - pose proof (c_str_terminated (drop 1 (<[21%nat:=NUL]> report))) as Hterm.
    rewrite lookup_drop in Hterm. apply Hterm.
    rewrite length_drop, length_insert. lia.
Qed.

Lemma getStringFromReport_bounded_witness :
  well_sized (replicate 32 "x"%char)
  /\ length (snd (getStringFromReport (replicate 32 "x"%char) [])) = 20%nat.
Proof.
  assert (Hsz : well_sized (replicate 32 "x"%char)) by reflexivity.
  split; [exact Hsz|].
  destruct (getStringFromReport_bounded (replicate 32 "x"%char) [] Hsz)
    as (_ & _ & _ & _ & Hle & _).
  apply Nat.le_antisymm; [exact Hle|].
  vm_compute. lia.
Defined.

(** ** Unit name *)

Lemma rfind_from_app (s1 s2 : std_string) (c : byte) (k last : Z) :
  rfind_from (s1 ++ s2) c k last
  = rfind_from s2 c (k + Z.of_nat (length s1)) (rfind_from s1 c k last).
Proof.
  revert k last. induction s1 as [|a s1 IH]; intros k last; simpl.
  - rewrite Z.add_0_r. reflexivity.
  - rewrite IH. f_equal. lia.
Qed.

Lemma rfind_from_absent (s : std_string) (c : byte) (k last : Z) :
  c ∉ s -> rfind_from s c k last = last.
Proof.
  revert k last. induction s as [|a s IH]; intros k last Hc; simpl.
  - reflexivity.
  - apply not_elem_of_cons in Hc as [Hne Hc].
    rewrite IH by exact Hc.
    destruct (Ascii.eqb_spec a c); congruence.
Qed.

Lemma last_occ_tail (c : byte) (s : std_string) (i : nat) :
  last_occ c s i -> c ∉ drop (S i) s.
Proof.
  intros [_ Hlast] Hin. apply list_elem_of_lookup in Hin as [j Hj].
  rewrite lookup_drop in Hj. apply (Hlast (S i + j)%nat); [lia | exact Hj].
Qed.

Lemma rfind_last_occ (c : byte) (s : std_string) (i : nat) :
  last_occ c s i -> rfind s c = Z.of_nat i.
Proof.
  intros Hocc. pose proof (last_occ_tail _ _ _ Hocc) as Htail.
  destruct Hocc as [Hi _].
  unfold rfind.
  rewrite <- (take_drop_middle s i c Hi) at 1.
  rewrite rfind_from_app. simpl.
  rewrite Ascii.eqb_refl.
  rewrite rfind_from_absent by exact Htail.
  rewrite length_take. apply lookup_lt_Some in Hi. lia.
Qed.

Lemma rfind_absent (c : byte) (s : std_string) : c ∉ s -> rfind s c = npos.
Proof. apply rfind_from_absent. Qed.

Lemma last_occ_exists (c : byte) (s : std_string) :
  c ∈ s -> exists i, last_occ c s i.
Proof.
  induction s as [|a s IH]; intros Hin.
  - apply elem_of_nil in Hin. contradiction.
  - destruct (decide (c ∈ s)) as [Hs|Hs].
    + destruct (IH Hs) as [i [Hi Hlast]]. exists (S i). split; [exact Hi|].
      intros [|j] Hj; [lia|]. simpl. apply Hlast. lia.
    + apply elem_of_cons in Hin as [->|Hin]; [|contradiction].
      exists 0%nat. split; [reflexivity|].
      intros [|j] Hj; [lia|]. simpl. intros Hj'.
      apply Hs. apply list_elem_of_lookup. eauto.
Qed.

Lemma last_occ_unique (c : byte) (s : std_string) (i j : nat) :
  last_occ c s i -> last_occ c s j -> i = j.
Proof.
  intros [Hi Hli] [Hj Hlj].
  destruct (Nat.lt_trichotomy i j) as [Hlt|[Heq|Hgt]]; [|exact Heq|].
  - exfalso. exact (Hli j Hlt Hj).
  - exfalso. exact (Hlj i Hgt Hi).
Qed.

Lemma last_occ_lt_length (c : byte) (s : std_string) (i : nat) :
  last_occ c s i -> (i < length s)%nat.
Proof. intros [Hi _]. exact (lookup_lt_Some _ _ _ Hi). Qed.

Lemma getFieldUnit_parse_no_open (name out : std_string) :
  "["%char ∉ name -> getFieldUnit_parse name out = (eOakStatusInternalError, out).
Proof.
  intros H. unfold getFieldUnit_parse. rewrite (rfind_absent _ _ H). reflexivity.
Qed.

Lemma getFieldUnit_parse_no_close (name out : std_string) :
  "]"%char ∉ name -> getFieldUnit_parse name out = (eOakStatusInternalError, out).
Proof.
  intros H. unfold getFieldUnit_parse. rewrite (rfind_absent "]" _ H).
  destruct (to_int (rfind name "[") =? to_int npos); reflexivity.
Qed.

Lemma getFieldUnit_parse_spec (name out : std_string) (i j : nat) :
  Z.of_nat (length name) <= INT_MAX ->
  last_occ "[" name i -> last_occ "]" name j ->
  getFieldUnit_parse name out
  = if (j <=? i + 1)%nat then (eOakStatusInternalError, out)
    else (eOakStatusOK, take (j - i - 1) (drop (S i) name)).
Proof.
  intros Hlen Hi Hj. unfold getFieldUnit_parse.
  rewrite (rfind_last_occ _ _ _ Hi), (rfind_last_occ _ _ _ Hj).
  apply last_occ_lt_length in Hi, Hj.
  rewrite to_int_npos.
  rewrite !to_int_id by (unfold in_int, INT_MIN, INT_MAX in *; lia).
  destruct (Z.eqb_spec (Z.of_nat i) (-1)); [lia|].
  destruct (Z.eqb_spec (Z.of_nat j) (-1)); [lia|].
  destruct (Z.leb_spec (Z.of_nat j) (Z.of_nat i + 1));
    destruct (Nat.leb_spec j (i + 1)); try lia; [reflexivity|].
  unfold substr. do 3 f_equal; lia.
Qed.

Lemma c_str_length (buf : list byte) : (length (c_str buf) <= length buf)%nat.
Proof.
  induction buf as [|b buf IH]; simpl; [lia|].
  destruct (is_NUL b); simpl; lia.
Qed.

(** A channel name that was read from the device fits the descriptor
    buffer, and so an [int]. *)
Lemma getChannelName_length {K} (dev : HidDev K) (h ch : Z)
    (out name : std_string) (w w' : World K) :
  getChannelName dev h ch out w = Returns (eOakStatusOK, name) w' ->
  Z.of_nat (length name) <= INT_MAX.
Proof.
  unfold getChannelName, getStringDescriptor, bind, syscall.
  destruct (HIDIOCGSTRING dev h (to_int (4 + ch)) (kernel w)) as [[r answer] k].
  cbv zeta. destruct (r <? 0); unfold ret; intros Hrun; [discriminate Hrun|].
  injection Hrun as <- _.
  pose proof (c_str_length (take HID_STRING_SIZE answer)) as Hc.
  rewrite length_take in Hc. unfold HID_STRING_SIZE, INT_MAX in *. lia.
Qed.

Lemma getFieldUnit_after_name {K} (dev : HidDev K) (h ch : Z)
    (out name : std_string) (w w' : World K) :
  getChannelName dev h ch [] w = Returns (eOakStatusOK, name) w' ->
  getFieldUnit dev h ch out w = Returns (getFieldUnit_parse name out) w'.
Proof.
  intros Hname. unfold getFieldUnit, bind. rewrite Hname. reflexivity.
Qed.

(** C2 (amended). For a channel whose name query succeeds, [getFieldUnit]
    returns InternalError exactly when the name has no '[', or no ']', or
    its last ']' lies at most one position after its last '[' (before it,
    or right behind it with nothing in between); otherwise it returns OK
    and the substring strictly between the last '[' and the last ']'.
    "Temperature [°C]" gives "°C"; "NoUnit" and "broken]name[" give
    InternalError. *)
Theorem getFieldUnit_brackets {K} (dev : HidDev K) (h ch : Z)
    (out name : std_string) (w w' : World K) :
  getChannelName dev h ch [] w = Returns (eOakStatusOK, name) w' ->
  let res := getFieldUnit_parse name out in
  getFieldUnit dev h ch out w = Returns res w'
  /\ (fst res = eOakStatusInternalError <->
        ("["%char ∉ name) \/ ("]"%char ∉ name) \/
        exists i j, last_occ "[" name i /\ last_occ "]" name j /\ (j <= i + 1)%nat)
  /\ (fst res = eOakStatusInternalError -> snd res = out)
  /\ (forall i j, last_occ "[" name i -> last_occ "]" name j -> (i + 1 < j)%nat ->
        res = (eOakStatusOK, take (j - i - 1) (drop (S i) name)))
  /\ getFieldUnit_parse (str "Temperature [°C]") out = (eOakStatusOK, str "°C")
  /\ getFieldUnit_parse (str "NoUnit") out = (eOakStatusInternalError, out)
  /\ getFieldUnit_parse (str "broken]name[") out = (eOakStatusInternalError, out).
Proof.
  intros Hname res. subst res.
  pose proof (getChannelName_length dev h ch [] name w w' Hname) as Hlen.
  split; [exact (getFieldUnit_after_name dev h ch out name w w' Hname)|].
  assert (Hcases :
    (("["%char ∉ name) /\ getFieldUnit_parse name out = (eOakStatusInternalError, out))
    \/ (("]"%char ∉ name) /\ getFieldUnit_parse name out = (eOakStatusInternalError, out))
    \/ exists i j, last_occ "[" name i /\ last_occ "]" name j /\
         getFieldUnit_parse name out
         = if (j <=? i + 1)%nat then (eOakStatusInternalError, out)
           else (eOakStatusOK, take (j - i - 1) (drop (S i) name))).
  { destruct (decide ("["%char ∈ name)) as [Ho|Ho];
      [|left; split; [exact Ho | exact (getFieldUnit_parse_no_open _ _ Ho)]].
    destruct (decide ("]"%char ∈ name)) as [Hc|Hc];
      [|right; left; split; [exact Hc | exact (getFieldUnit_parse_no_close _ _ Hc)]].
    destruct (last_occ_exists _ _ Ho) as [i Hi].
    destruct (last_occ_exists _ _ Hc) as [j Hj].
    right; right. exists i, j. split; [exact Hi|]. split; [exact Hj|].
    exact (getFieldUnit_parse_spec name out i j Hlen Hi Hj). }
  split; [|split; [|split]].
  - split.
    + intros Herr. destruct Hcases as [[Ho _]|[[Hc _]|(i & j & Hi & Hj & Heq)]];
        [left; exact Ho | right; left; exact Hc |].
      right; right. exists i, j. split; [exact Hi|]. split; [exact Hj|].
      rewrite Heq in Herr. destruct (Nat.leb_spec j (i + 1)); [lia|].
      discriminate Herr.
    + intros [Ho|[Hc|(i & j & Hi & Hj & Hle)]].
      * rewrite getFieldUnit_parse_no_open by exact Ho. reflexivity.
      * rewrite getFieldUnit_parse_no_close by exact Hc. reflexivity.
      * rewrite (getFieldUnit_parse_spec name out i j Hlen Hi Hj).
        destruct (Nat.leb_spec j (i + 1)); [reflexivity | lia].
  - intros Herr. destruct Hcases as [[_ Heq]|[[_ Heq]|(i & j & _ & _ & Heq)]];
      rewrite Heq in *; [reflexivity | reflexivity |].
    destruct (j <=? i + 1)%nat; [reflexivity | discriminate Herr].
  - intros i j Hi Hj Hlt.
    rewrite (getFieldUnit_parse_spec name out i j Hlen Hi Hj).
    destruct (Nat.leb_spec j (i + 1)); [lia | reflexivity].
  - repeat split; reflexivity.
Qed.

Lemma getFieldUnit_brackets_witness :
  result_of (getFieldUnit (Sim.device Sim.healthy) 3 0 [] Sim.boot)
  = Some (eOakStatusOK, str "°C").
Proof.
  assert (Hname : getChannelName (Sim.device Sim.healthy) 3 0 [] Sim.boot
                  = Returns (eOakStatusOK, str "Temperature [°C]")
                      (mk_World 1%nat (tempReport Sim.boot) [EvGSTRING 3 4]))
    by reflexivity.
  destruct (getFieldUnit_brackets (Sim.device Sim.healthy) 3 0 []
              (str "Temperature [°C]") Sim.boot _ Hname) as [Hrun _].
  rewrite Hrun. reflexivity.
Defined.

(** C2 as first stated fails on the name "[]": both brackets are there and
    the last ']' (index 1) comes after the last '[' (index 0), yet the
    result is InternalError, not the empty unit name. *)
Lemma getFieldUnit_empty_brackets :
  getChannelName (Sim.device Sim.empty_unit) 3 0 [] Sim.boot
  = Returns (eOakStatusOK, str "[]")
      (mk_World 1%nat (tempReport Sim.boot) [EvGSTRING 3 4])
  /\ last_occ "[" (str "[]") 0
  /\ last_occ "]" (str "[]") 1
  /\ (0 < 1)%nat
  /\ result_of (getFieldUnit (Sim.device Sim.empty_unit) 3 0 [] Sim.boot)
     = Some (eOakStatusInternalError, []).
Proof.
  split; [reflexivity|].
  split; [split; [reflexivity|]; intros [|[|j]] Hj; try lia; simpl; discriminate|].
  split; [split; [reflexivity|]; intros [|[|j]] Hj; try lia; simpl; discriminate|].
  split; [lia | reflexivity].
Qed.

(** ** Protocol engine *)

Lemma syscall_run {K A} (e : event) (f : K -> A * K) (w : World K) :
  syscall e f w
  = Returns (fst (f (kernel w)))
      (mk_World (snd (f (kernel w))) (tempReport w) (trace w ++ [e])).
Proof. unfold syscall. destruct (f (kernel w)). reflexivity. Qed.

Lemma report_values_map (report : OakFeatureReport) :
  well_sized report -> report_values report = map int_of_byte report.
Proof.
  unfold well_sized, report_values. intros <-.
  induction report as [|b report IH]; [reflexivity|].
  simpl. f_equal. rewrite <- seq_shift, map_map. exact IH.
Qed.

Lemma report_of_values_lookup (values : nat -> Z) (i : nat) :
  (i < kFeatureReportSize)%nat ->
  report_of_values values !! i = Some (byte_of_int (values i)).
Proof.
  intros Hi. unfold report_of_values.
  rewrite list_lookup_fmap, lookup_seq_lt by exact Hi. reflexivity.
Qed.

Lemma report_of_values_sized (values : nat -> Z) :
  well_sized (report_of_values values).
Proof. unfold well_sized, report_of_values. rewrite length_map, length_seq. reflexivity. Qed.

Lemma report_of_values_head (values : nat -> Z) :
  int_of_byte (report_at (report_of_values values) 0) = to_uchar (values 0%nat).
Proof. simpl. apply int_of_byte_of_int. Qed.

(** One read of the feature report, by the answers of the kernel. *)
Lemma readFeatureReport_run {K} (dev : HidDev K) (h : Z)
    (report : OakFeatureReport) (w : World K) :
  readFeatureReport dev h report w
  = let g := HIDIOCGREPORT dev h (kernel w) in
    let u := HIDIOCGUSAGES dev h (snd g) in
    if fst g =? -1
    then Returns (eOakStatusReadError, report)
           (mk_World (snd g) (tempReport w) (trace w ++ [EvGREPORT h]))
    else if fst (fst u) =? -1
    then Returns (eOakStatusReadError, report)
           (mk_World (snd u) (tempReport w) (trace w ++ [EvGREPORT h; EvGUSAGES h]))
    else Returns (eOakStatusOK, report_of_values (snd (fst u)))
           (mk_World (snd u) (tempReport w) (trace w ++ [EvGREPORT h; EvGUSAGES h])).
Proof.
  unfold readFeatureReport, bind, syscall. cbv zeta.
  destruct (HIDIOCGREPORT dev h (kernel w)) as [r1 k1]. simpl.
  destruct (r1 =? -1); [reflexivity|]. simpl.
  destruct (HIDIOCGUSAGES dev h k1) as [[r2 v] k2]. simpl.
  rewrite <- app_assoc. simpl.
  destruct (r2 =? -1); reflexivity.
Qed.

(** One send of a report, by the answers of the kernel. *)
Lemma sendFeatureReport_run {K} (dev : HidDev K) (h : Z)
    (report : OakFeatureReport) (w : World K) :
  sendFeatureReport dev h report w
  = let s := HIDIOCSUSAGES dev h (report_values report) (kernel w) in
    let c := HIDIOCSREPORT dev h (snd s) in
    if fst s =? -1
    then Returns eOakStatusWriteError
           (mk_World (snd s) (tempReport w)
              (trace w ++ [EvSUSAGES h (report_values report)]))
    else Returns (if fst c =? -1 then eOakStatusWriteError else eOakStatusOK)
           (mk_World (snd c) (tempReport w)
              (trace w ++ [EvSUSAGES h (report_values report); EvSREPORT h])).
Proof.
  unfold sendFeatureReport, bind, syscall. cbv zeta.
  fold (report_values report).
  destruct (HIDIOCSUSAGES dev h (report_values report) (kernel w)) as [r1 k1]. simpl.
  destruct (r1 =? -1); [reflexivity|]. simpl.
  destruct (HIDIOCSREPORT dev h k1) as [r2 k2]. simpl.
  rewrite <- app_assoc. simpl.
  destruct (r2 =? -1); reflexivity.
Qed.

Lemma readFeatureReport_ready {K} (dev : HidDev K) (h : Z)
    (report : OakFeatureReport) (w : World K) :
  always_ready dev ->
  let k1 := snd (HIDIOCGREPORT dev h (kernel w)) in
  let u := HIDIOCGUSAGES dev h k1 in
  readFeatureReport dev h report w
  = Returns (eOakStatusOK, report_of_values (snd (fst u)))
      (mk_World (snd u) (tempReport w) (trace w ++ [EvGREPORT h; EvGUSAGES h]))
  /\ int_of_byte (report_at (report_of_values (snd (fst u))) 0) = 0xff.
Proof.
  intros Hready k1 u. subst k1 u.
  destruct (Hready h (kernel w)) as (Hg & _ & _).
  destruct (Hready h (snd (HIDIOCGREPORT dev h (kernel w)))) as (_ & Hu & Hff).
  split.
  - rewrite readFeatureReport_run. cbv zeta.
    destruct (Z.eqb_spec (fst (HIDIOCGREPORT dev h (kernel w))) (-1)); [contradiction|].
    destruct (Z.eqb_spec
      (fst (fst (HIDIOCGUSAGES dev h (snd (HIDIOCGREPORT dev h (kernel w)))))) (-1));
      [contradiction|].
    reflexivity.
  - rewrite report_of_values_head. exact Hff.
Qed.

Lemma waitReady_ready {K} (dev : HidDev K) (fuel : nat) (h : Z) (w : World K) :
  always_ready dev ->
  let u := HIDIOCGUSAGES dev h (snd (HIDIOCGREPORT dev h (kernel w))) in
  waitReady dev (S fuel) h w
  = Returns eOakStatusOK
      (mk_World (snd u) (report_of_values (snd (fst u)))
         (trace w ++ [EvGREPORT h; EvGUSAGES h])).
Proof.
  intros Hready u. subst u.
  destruct (readFeatureReport_ready dev h (tempReport w) w Hready) as [Hrun Hff].
  cbn [waitReady]. unfold bind at 1. unfold get_tempReport.
  unfold bind at 1. rewrite Hrun.
  unfold bind, set_tempReport. cbn [is_OK EOakStatus_eqb negb kernel trace].
  rewrite Hff. reflexivity.
Qed.

Lemma waitReply_ready {K} (dev : HidDev K) (fuel : nat) (h : Z)
    (report : OakFeatureReport) (w : World K) :
  always_ready dev ->
  let u := HIDIOCGUSAGES dev h (snd (HIDIOCGREPORT dev h (kernel w))) in
  waitReply dev (S fuel) h report w
  = Returns (eOakStatusOK, report_of_values (snd (fst u)))
      (mk_World (snd u) (tempReport w) (trace w ++ [EvGREPORT h; EvGUSAGES h])).
Proof.
  intros Hready u. subst u.
  destruct (readFeatureReport_ready dev h report w Hready) as [Hrun Hff].
  cbn [waitReply]. unfold bind at 1. rewrite Hrun.
  cbn [is_OK EOakStatus_eqb negb].
  rewrite Hff. reflexivity.
Qed.

Lemma sendFeatureReport_ok {K} (dev : HidDev K) (h : Z)
    (report : OakFeatureReport) (w : World K) :
  send_succeeds dev ->
  let k1 := snd (HIDIOCSUSAGES dev h (report_values report) (kernel w)) in
  sendFeatureReport dev h report w
  = Returns eOakStatusOK
      (mk_World (snd (HIDIOCSREPORT dev h k1)) (tempReport w)
         (trace w ++ [EvSUSAGES h (report_values report); EvSREPORT h])).
Proof.
  intros Hsend k1. subst k1. rewrite sendFeatureReport_run. cbv zeta.
  destruct (Hsend h (kernel w)) as [Hs _].
  destruct (Hsend h (snd (HIDIOCSUSAGES dev h (report_values report) (kernel w))))
    as [_ Hc].
  destruct (Z.eqb_spec
    (fst (HIDIOCSUSAGES dev h (report_values report) (kernel w))) (-1)) as [He|_];
    [exact (False_ind _ (Hs _ He))|].
  destruct (Z.eqb_spec (fst (HIDIOCSREPORT dev h
    (snd (HIDIOCSUSAGES dev h (report_values report) (kernel w))))) (-1));
    [contradiction | reflexivity].
Qed.

(** C3 (amended). On a device whose feature-report reads all succeed with
    readiness byte 0xff and whose send succeeds, a transaction with at
    least one iteration allowed per loop makes one idle read, sends the
    caller's report once, makes one more read and returns OK; the report
    handed back holds the bytes of that last read, byte 0 being 0xff. *)
Theorem sendReportAndWaitForReply_ready {K} (dev : HidDev K) (fuel : nat)
    (h : Z) (report : OakFeatureReport) (w : World K) :
  always_ready dev -> send_succeeds dev -> well_sized report ->
  let idle := HIDIOCGUSAGES dev h (snd (HIDIOCGREPORT dev h (kernel w))) in
  let k3 := snd (HIDIOCSUSAGES dev h (map int_of_byte report) (snd idle)) in
  let k4 := snd (HIDIOCSREPORT dev h k3) in
  let answer := HIDIOCGUSAGES dev h (snd (HIDIOCGREPORT dev h k4)) in
  let reply := snd (fst answer) in
  sendReportAndWaitForReply dev (S fuel) h report w
  = Returns (eOakStatusOK, report_of_values reply)
      (mk_World (snd answer) (report_of_values (snd (fst idle)))
         (trace w ++ [EvGREPORT h; EvGUSAGES h;
                      EvSUSAGES h (map int_of_byte report); EvSREPORT h;
                      EvGREPORT h; EvGUSAGES h]))
  /\ (forall i, (i < kFeatureReportSize)%nat ->
        report_of_values reply !! i = Some (byte_of_int (reply i)))
  /\ report_of_values reply !! 0%nat = Some (byte_of_int 0xff)
  /\ (forall i, (i < kFeatureReportSize)%nat -> 0 <= reply i < 256 ->
        int_of_byte <$> report_of_values reply !! i = Some (reply i)).
Proof.
  intros Hready Hsend Hsz idle k3 k4 answer reply.
  subst idle k3 k4 answer reply.
  rewrite <- (report_values_map report Hsz).
  split; [|split; [|split]].
  - unfold sendReportAndWaitForReply.
    unfold bind at 1. rewrite (waitReady_ready dev fuel h w Hready).
    cbn [is_OK EOakStatus_eqb negb].
    unfold bind at 1. rewrite (sendFeatureReport_ok dev h report _ Hsend).
    cbn [is_OK EOakStatus_eqb negb kernel tempReport trace].
    rewrite (waitReply_ready dev fuel h report _ Hready).
    cbn [kernel tempReport trace].
    rewrite <- !app_assoc. reflexivity.
  - intros i Hi. apply report_of_values_lookup. exact Hi.
  - rewrite report_of_values_lookup by (unfold kFeatureReportSize; lia).
    match goal with
    | |- Some (byte_of_int (snd (fst (HIDIOCGUSAGES dev h ?k)) _)) = _ =>
        destruct (Hready h k) as (_ & _ & Hff)
    end.
    unfold byte_of_int. rewrite Hff. reflexivity.
  - intros i Hi Hbyte. rewrite report_of_values_lookup by exact Hi.
    simpl. rewrite int_of_byte_of_int. unfold to_uchar.
    rewrite Z.mod_small by lia. reflexivity.
Qed.

Lemma healthy_always_ready : always_ready (Sim.device Sim.healthy).
Proof. intros h k. simpl. repeat split; try discriminate. Qed.

Lemma healthy_send_succeeds : send_succeeds (Sim.device Sim.healthy).
Proof. intros h k. simpl. split; [intros _|]; discriminate. Qed.

Lemma sendReportAndWaitForReply_ready_witness :
  result_of (sendReportAndWaitForReply (Sim.device Sim.healthy) 1 3
               Sim.name_query Sim.boot)
  = Some (eOakStatusOK, report_of_values (fun i => nth i [255; 79; 97; 107] 0)).
Proof.
  assert (Hsz : well_sized Sim.name_query) by reflexivity.
  destruct (sendReportAndWaitForReply_ready (Sim.device Sim.healthy) 0 3
              Sim.name_query Sim.boot
              healthy_always_ready healthy_send_succeeds Hsz) as [Hrun _].
  rewrite Hrun. reflexivity.
Defined.

(** C3 as first stated fails when the device refuses the outgoing report:
    every read succeeds with readiness byte 0xff, and the transaction still
    ends in WriteError with the caller's report as it was. *)
Lemma sendReportAndWaitForReply_write_refused :
  always_ready (Sim.device Sim.unwritable)
  /\ well_sized Sim.name_query
  /\ sendReportAndWaitForReply (Sim.device Sim.unwritable) 1 3
       Sim.name_query Sim.boot
     = Returns (eOakStatusWriteError, Sim.name_query)
         (mk_World 3%nat (report_of_values (fun i => nth i [255; 79; 97; 107] 0))
            [EvGREPORT 3; EvGUSAGES 3; EvSUSAGES 3 (map int_of_byte Sim.name_query)]).
Proof.
  split; [|split; reflexivity].
  intros h k. simpl. repeat split; try discriminate.
Qed.

Lemma polls_only_no_send (tr : list event) : polls_only tr -> no_send tr.
Proof.
  unfold polls_only, no_send. intros H. eapply Forall_impl; [exact H|].
  intros [] He; simpl in *; congruence.
Qed.

Lemma readFeatureReport_shape {K} (dev : HidDev K) (h : Z)
    (report : OakFeatureReport) (w : World K) :
  exists st r w' tr,
    readFeatureReport dev h report w = Returns (st, r) w'
    /\ trace w' = trace w ++ tr
    /\ polls_only tr
    /\ tempReport w' = tempReport w.
Proof.
  rewrite readFeatureReport_run. cbv zeta.
  destruct (_ =? -1).
  - eexists _, _, _, [EvGREPORT h]. split; [reflexivity|].
    split; [reflexivity|]. split; [|reflexivity].
    repeat constructor.
  - destruct (_ =? -1);
      (eexists _, _, _, [EvGREPORT h; EvGUSAGES h]; split; [reflexivity|];
       split; [reflexivity|]; split; [|reflexivity]; repeat constructor).
Qed.

Lemma waitReady_shape {K} (dev : HidDev K) (h : Z) (fuel : nat) (w : World K) :
  exists tr,
    trace (world_of (waitReady dev fuel h w)) = trace w ++ tr /\ polls_only tr.
Proof.
  revert w. induction fuel as [|fuel IH]; intros w.
  - exists []. simpl. rewrite app_nil_r. split; [reflexivity | constructor].
  - cbn [waitReady]. unfold bind at 1. unfold get_tempReport. unfold bind at 1.
    destruct (readFeatureReport_shape dev h (tempReport w) w)
      as (st & r & w1 & tr1 & Hrun & Htr1 & Hp1 & _).
    rewrite Hrun. unfold bind, set_tempReport.
    destruct (negb (is_OK st)).
    + exists tr1. simpl. split; [exact Htr1 | exact Hp1].
    + destruct (negb (0xff =? int_of_byte (report_at r 0))).
      * destruct (IH (mk_World (kernel w1) r (trace w1))) as (tr2 & Htr2 & Hp2).
        exists (tr1 ++ tr2). rewrite Htr2. simpl. rewrite Htr1, app_assoc.
        split; [reflexivity | apply Forall_app; split; assumption].
      * exists tr1. simpl. split; [exact Htr1 | exact Hp1].
Qed.

Lemma waitReply_shape {K} (dev : HidDev K) (h : Z) (fuel : nat)
    (report : OakFeatureReport) (w : World K) :
  exists tr,
    trace (world_of (waitReply dev fuel h report w)) = trace w ++ tr
    /\ polls_only tr.
Proof.
  revert report w. induction fuel as [|fuel IH]; intros report w.
  - exists []. simpl. rewrite app_nil_r. split; [reflexivity | constructor].
  - cbn [waitReply]. unfold bind at 1.
    destruct (readFeatureReport_shape dev h report w)
      as (st & r & w1 & tr1 & Hrun & Htr1 & Hp1 & _).
    rewrite Hrun.
    destruct (negb (is_OK st)).
    + exists tr1. simpl. split; [exact Htr1 | exact Hp1].
    + destruct (negb (0xff =? int_of_byte (report_at r 0))).
      * destruct (IH r w1) as (tr2 & Htr2 & Hp2).
        exists (tr1 ++ tr2). rewrite Htr2, Htr1, app_assoc.
        split; [reflexivity | apply Forall_app; split; assumption].
      * exists tr1. simpl. split; [exact Htr1 | exact Hp1].
Qed.

Lemma sendFeatureReport_shape {K} (dev : HidDev K) (h : Z)
    (report : OakFeatureReport) (w : World K) :
  exists st w' tr,
    sendFeatureReport dev h report w = Returns st w'
    /\ trace w' = trace w ++ EvSUSAGES h (report_values report) :: tr
    /\ no_send tr.
Proof.
  rewrite sendFeatureReport_run. cbv zeta.
  destruct (_ =? -1).
  - eexists _, _, []. split; [reflexivity|]. split; [reflexivity | constructor].
  - eexists _, _, [EvSREPORT h]. split; [reflexivity|].
    split; [reflexivity | repeat constructor].
Qed.

(** C8. Whatever the device answers and however long it is polled, the
    trace of a transaction is a run of reads (the WaitReady phase) followed
    either by nothing, the caller's report then being handed back as it
    was, or by one hand-over of usage values that are byte for byte those
    of the caller's report, with no other hand-over after it. *)
Theorem sendReportAndWaitForReply_sends_callers_report {K} (dev : HidDev K)
    (fuel : nat) (h : Z) (report : OakFeatureReport) (w : World K) :
  let o := sendReportAndWaitForReply dev fuel h report w in
  exists ready rest,
    trace (world_of o) = trace w ++ ready ++ rest
    /\ polls_only ready
    /\ ((rest = [] /\ forall st r, result_of o = Some (st, r) -> r = report)
        \/ exists after,
             rest = EvSUSAGES h (report_values report) :: after /\ no_send after)
    /\ (well_sized report -> report_values report = map int_of_byte report).
Proof.
  intros o. subst o. unfold sendReportAndWaitForReply, bind.
  destruct (waitReady_shape dev h fuel w) as (ready & Hready & Hpolls).
  exists ready.
  destruct (waitReady dev fuel h w) as [st1 w1|w1]; cbn [world_of] in Hready.
  - destruct (negb (is_OK st1)).
    + exists []. rewrite app_nil_r. unfold ret. cbn [world_of result_of].
      split; [exact Hready|]. split; [exact Hpolls|].
      split; [|apply report_values_map].
      left. split; [reflexivity|]. intros st r Hres. congruence.
    + destruct (sendFeatureReport_shape dev h report w1)
        as (st2 & w2 & tr2 & Hsend & Htr2 & Hns2).
      rewrite Hsend.
      destruct (negb (is_OK st2)).
      * exists (EvSUSAGES h (report_values report) :: tr2).
        unfold ret. cbn [world_of]. rewrite Htr2, Hready, <- app_assoc.
        split; [reflexivity|]. split; [exact Hpolls|].
        split; [|apply report_values_map].
        right. exists tr2. split; [reflexivity | exact Hns2].
      * destruct (waitReply_shape dev h fuel report w2) as (tr3 & Htr3 & Hp3).
        exists (EvSUSAGES h (report_values report) :: tr2 ++ tr3).
        rewrite Htr3, Htr2, Hready, <- !app_assoc.
        split; [reflexivity|]. split; [exact Hpolls|].
        split; [|apply report_values_map].
        right. exists (tr2 ++ tr3). split; [reflexivity|].
        apply Forall_app. split; [exact Hns2|].
        apply polls_only_no_send. exact Hp3.
  - exists []. rewrite app_nil_r. cbn [world_of result_of].
    split; [exact Hready|]. split; [exact Hpolls|].
    split; [|apply report_values_map].
    left. split; [reflexivity|]. intros st r Hres. discriminate Hres.
Qed.

(** ** User names *)

Lemma getUserDeviceName_status {K} (dev : HidDev K) (fuel : nat) (h : Z)
    (out : std_string) (persistent : bool) (w : World K) (st : EOakStatus)
    (s : std_string) :
  result_of (getUserDeviceName dev fuel h out persistent w) = Some (st, s) ->
  st = eOakStatusOK.
Proof.
  unfold getUserDeviceName, bind.
  destruct (sendReportAndWaitForReply dev fuel h _ w) as [[st1 r] w1|w1];
    simpl; congruence.
Qed.

Lemma getUserChannelName_status {K} (dev : HidDev K) (fuel : nat) (h ch : Z)
    (out : std_string) (persistent : bool) (w : World K) (st : EOakStatus)
    (s : std_string) :
  result_of (getUserChannelName dev fuel h ch out persistent w) = Some (st, s) ->
  st = eOakStatusOK.
Proof.
  unfold getUserChannelName, bind.
  destruct (sendReportAndWaitForReply dev fuel h _ w) as [[st1 r] w1|w1];
    simpl; congruence.
Qed.

(** C1. On a device whose feature report cannot be read, the transaction of
    the name query ends in ReadError, and [getUserDeviceName] and
    [getUserChannelName] nevertheless return OK, handing out bytes 1.. of
    the command report as the name. The decode step returns OK. *)
Theorem getUserName_drops_engine_status :
  result_of (sendReportAndWaitForReply (Sim.device Sim.unreadable) 1 3
               Sim.name_query Sim.boot)
  = Some (eOakStatusReadError, Sim.name_query)
  /\ result_of (getUserDeviceName (Sim.device Sim.unreadable) 1 3 [] true Sim.boot)
     = Some (eOakStatusOK, [byte_of_int 1; byte_of_int 0x15])
  /\ result_of (getUserChannelName (Sim.device Sim.unreadable) 1 3 0 [] true Sim.boot)
     = Some (eOakStatusOK, [byte_of_int 1; byte_of_int 0x15])
  /\ fst (fst (getStringFromReport Sim.name_query [])) = eOakStatusOK.
Proof. repeat split; reflexivity. Qed.

(** ** Interrupt reports *)

Lemma fill_lookup (g : nat -> Z) (n : nat) (v : list Z) :
  (n <= length v)%nat ->
  length (foldl (fun v i => <[i := g i]> v) v (seq 0 n)) = length v
  /\ (forall i, (i < n)%nat ->
        foldl (fun v i => <[i := g i]> v) v (seq 0 n) !! i = Some (g i))
  /\ (forall i, (n <= i)%nat ->
        foldl (fun v i => <[i := g i]> v) v (seq 0 n) !! i = v !! i).
Proof.
  induction n as [|n IH]; intros Hn.
  - simpl. split; [reflexivity|]. split; [intros i Hi; lia | reflexivity].
  - destruct IH as (Hlen & Hlow & Hhigh); [lia|].
    rewrite seq_S, foldl_snoc. simpl.
    split; [rewrite length_insert; exact Hlen|].
    split.
    + intros i Hi. destruct (decide (i = n)) as [->|Hne].
      * apply list_lookup_insert_eq. rewrite Hlen. lia.
      * rewrite list_lookup_insert_ne by congruence. apply Hlow. lia.
    + intros i Hi. rewrite list_lookup_insert_ne by lia. apply Hhigh. lia.
Qed.

Lemma resize_length (n : Z) (v : list Z) : length (resize n v) = Z.to_nat n.
Proof. unfold resize. rewrite length_app, length_take, length_replicate. lia. Qed.

Lemma filled_is_map (g : nat -> Z) (n : nat) (v : list Z) :
  length v = n -> (forall i, (i < n)%nat -> v !! i = Some (g i)) ->
  v = map g (seq 0 n).
Proof.
  intros Hlen Hv. apply list_eq. intros i.
  rewrite list_lookup_fmap.
  destruct (Nat.lt_ge_cases i n) as [Hi|Hi].
  - rewrite (Hv i Hi), lookup_seq_lt by exact Hi. reflexivity.
  - rewrite lookup_ge_None_2 by lia.
    rewrite lookup_seq_ge by exact Hi. reflexivity.
Qed.

Lemma to_int_of_size (n : nat) (c : Z) :
  0 <= c -> to_int (Z.of_nat n) = c -> (Z.to_nat c <= n)%nat.
Proof.
  unfold to_int. intros Hc Heq.
  pose proof (Z.div_mod (Z.of_nat n + 2 ^ 31) (2 ^ 32) ltac:(lia)) as Hdm.
  assert (0 <= (Z.of_nat n + 2 ^ 31) / 2 ^ 32) by (apply Z.div_pos; lia).
  lia.
Qed.

(** C7. If the read returns fewer bytes than one event, the result is
    ReadError and the caller's vector is handed back as it was. Otherwise,
    with N complete events, the vector is resized (to N) only if its length
    differs from N, elements 0..N-1 then hold the values of events 0..N-1
    in order, and the result is OK. *)
Theorem readInterruptReport_events {K} (dev : HidDev K) (h : Z)
    (outReadValues : list Z) (w : World K) :
  let rd := fst (fst (sys_read dev h sizeof_ev (kernel w))) in
  let ev := snd (fst (sys_read dev h sizeof_ev (kernel w))) in
  let k' := snd (sys_read dev h sizeof_ev (kernel w)) in
  let N := Z.to_nat (rd / sizeof_event) in
  let o := readInterruptReport dev h outReadValues w in
  -1 <= rd <= sizeof_ev ->
  (rd < sizeof_event ->
     o = Returns (eOakStatusReadError, outReadValues)
           (mk_World k' (tempReport w) (trace w ++ [EvRead h sizeof_ev])))
  /\ (sizeof_event <= rd ->
      exists v resizes,
        o = Returns (eOakStatusOK, v)
              (mk_World k' (tempReport w)
                 (trace w ++ EvRead h sizeof_ev :: resizes))
        /\ (resizes = [] \/ resizes = [EvResize (Z.of_nat N)])
        /\ (resizes <> [] -> length outReadValues <> N)
        /\ (Z.of_nat (length outReadValues) <= INT_MAX ->
            length outReadValues <> N -> resizes = [EvResize (Z.of_nat N)])
        /\ (forall i, (i < N)%nat -> v !! i = Some (value (ev i)))
        /\ (Z.of_nat (length outReadValues) <= INT_MAX ->
            v = map (fun i => value (ev i)) (seq 0 N))).
Proof.
  intros rd ev k' N o Hrd. subst o.
  unfold readInterruptReport, bind. rewrite syscall_run.
  fold rd ev k'.
  destruct (sys_read dev h sizeof_ev (kernel w)) as [[rd0 ev0] k0] eqn:Hread.
  simpl in rd, ev, k'. subst rd ev k'.
  unfold sizeof_ev, sizeof_event in *. cbn [fst snd].
  assert (Hint : to_int rd0 = rd0)
    by (apply to_int_id; unfold in_int, INT_MIN, INT_MAX; lia).
  rewrite Hint.
  split.
  - intros Hshort. destruct (Z.ltb_spec rd0 8); [reflexivity | lia].
  - intros Hlong. destruct (Z.ltb_spec rd0 8); [lia|].
    assert (Hq : 1 <= rd0 / 8 <= 64).
    { split; [apply Z.div_le_lower_bound; lia | apply Z.div_le_upper_bound; lia]. }
    assert (Hkc : to_int (rd0 / 8) = rd0 / 8)
      by (apply to_int_id; unfold in_int, INT_MIN, INT_MAX; lia).
    rewrite Hkc. fold N.
    destruct (Z.eqb_spec (rd0 / 8) (to_int (Z.of_nat (length outReadValues))))
      as [Hsame|Hdiff]; cbn [negb].
    + assert (HN : (N <= length outReadValues)%nat)
        by (apply to_int_of_size; [lia | congruence]).
      destruct (fill_lookup (fun i => value (ev0 i)) N outReadValues HN)
        as (Hlen & Hlow & _).
      eexists _, []. unfold ret. split; [reflexivity|].
      split; [left; reflexivity|].
      split; [intros Hne; congruence|].
      assert (Hnowrap : Z.of_nat (length outReadValues) <= INT_MAX ->
                        length outReadValues = N).
      { intros Hmax. rewrite to_int_id in Hsame by (apply in_int_of_nat; exact Hmax).
        subst N. rewrite Hsame. lia. }
      split; [intros Hmax Hne; exfalso; exact (Hne (Hnowrap Hmax))|].
      split; [exact Hlow|].
      intros Hmax. apply filled_is_map; [|exact Hlow].
      rewrite Hlen. exact (Hnowrap Hmax).
    + assert (HN : (N <= length (resize (rd0 / 8) outReadValues))%nat)
        by (rewrite resize_length; subst N; lia).
      destruct (fill_lookup (fun i => value (ev0 i)) N
                  (resize (rd0 / 8) outReadValues) HN) as (Hlen & Hlow & _).
      eexists _, [EvResize (rd0 / 8)]. unfold ret, emit. cbn [kernel tempReport trace].
      rewrite <- app_assoc. split; [reflexivity|].
      assert (HNz : Z.of_nat N = rd0 / 8) by (subst N; lia).
      rewrite HNz.
      split; [right; reflexivity|].
      split.
      * intros _ Hlen'. apply Hdiff.
        rewrite to_int_id; [lia|]. unfold in_int, INT_MIN, INT_MAX. lia.
      * split; [reflexivity|]. split; [exact Hlow|].
        intros _. apply filled_is_map; [|exact Hlow].
        rewrite Hlen. apply resize_length.
Qed.

Example readInterruptReport_short_read :
  result_of (readInterruptReport (Sim.device Sim.short_read) 3 [7; 7] Sim.boot)
  = Some (eOakStatusReadError, [7; 7]).
Proof. reflexivity. Qed.

Lemma readInterruptReport_events_witness :
  exists v resizes,
    readInterruptReport (Sim.device Sim.healthy) 3 [7] Sim.boot
    = Returns (eOakStatusOK, v)
        (mk_World 1%nat (tempReport Sim.boot)
           (trace Sim.boot ++ EvRead 3 sizeof_ev :: resizes))
    /\ v = [2315; -40].
Proof.
  assert (Hrd : -1 <= 16 <= sizeof_ev) by (unfold sizeof_ev, sizeof_event; lia).
  assert (Hlong : sizeof_event <= 16) by (unfold sizeof_event; lia).
  destruct (readInterruptReport_events (Sim.device Sim.healthy) 3 [7] Sim.boot Hrd)
    as [_ Hevents].
  destruct (Hevents Hlong) as (v & resizes & Hrun & _ & _ & _ & _ & Hv).
  exists v, resizes. split; [exact Hrun|].
  apply Hv. vm_compute. discriminate.
Defined.

(** ** Channel information *)

Section SameButFieldInfo.

Context {K : Type}.
Variables d1 d2 : HidDev K.
Hypothesis Hsame : same_but_fieldinfo d1 d2.

Lemma getStringDescriptor_same (h index : Z) (out : std_string) (w : World K) :
  getStringDescriptor d1 h index out w = getStringDescriptor d2 h index out w.
Proof.
  destruct Hsame as (Hs & _). unfold getStringDescriptor. rewrite Hs. reflexivity.
Qed.

Lemma readFeatureReport_same (h : Z) (report : OakFeatureReport) (w : World K) :
  readFeatureReport d1 h report w = readFeatureReport d2 h report w.
Proof.
  destruct Hsame as (_ & Hg & Hu & _). unfold readFeatureReport.
  rewrite Hg, Hu. reflexivity.
Qed.

Lemma sendFeatureReport_same (h : Z) (report : OakFeatureReport) (w : World K) :
  sendFeatureReport d1 h report w = sendFeatureReport d2 h report w.
Proof.
  destruct Hsame as (_ & _ & _ & Hs & Hc & _). unfold sendFeatureReport.
  rewrite Hs, Hc. reflexivity.
Qed.

Lemma waitReady_same (fuel : nat) (h : Z) (w : World K) :
  waitReady d1 fuel h w = waitReady d2 fuel h w.
Proof.
  revert w. induction fuel as [|fuel IH]; intros w; [reflexivity|].
  cbn [waitReady]. unfold bind, get_tempReport, set_tempReport.
  rewrite readFeatureReport_same.
  destruct (readFeatureReport d2 h (tempReport w) w) as [[st r] w1|w1];
    [|reflexivity].
  destruct (negb (is_OK st)); [reflexivity|].
  destruct (negb (0xff =? int_of_byte (report_at r 0))); [apply IH | reflexivity].
Qed.

Lemma waitReply_same (fuel : nat) (h : Z) (report : OakFeatureReport) (w : World K) :
  waitReply d1 fuel h report w = waitReply d2 fuel h report w.
Proof.
  revert report w. induction fuel as [|fuel IH]; intros report w; [reflexivity|].
  cbn [waitReply]. unfold bind.
  rewrite readFeatureReport_same.
  destruct (readFeatureReport d2 h report w) as [[st r] w1|w1]; [|reflexivity].
  destruct (negb (is_OK st)); [reflexivity|].
  destruct (negb (0xff =? int_of_byte (report_at r 0))); [apply IH | reflexivity].
Qed.

Lemma sendReportAndWaitForReply_same (fuel : nat) (h : Z)
    (report : OakFeatureReport) (w : World K) :
  sendReportAndWaitForReply d1 fuel h report w
  = sendReportAndWaitForReply d2 fuel h report w.
Proof.
  unfold sendReportAndWaitForReply, bind. rewrite waitReady_same.
  destruct (waitReady d2 fuel h w) as [st w1|w1]; [|reflexivity].
  destruct (negb (is_OK st)); [reflexivity|].
  rewrite sendFeatureReport_same.
  destruct (sendFeatureReport d2 h report w1) as [st2 w2|w2]; [|reflexivity].
  destruct (negb (is_OK st2)); [reflexivity | apply waitReply_same].
Qed.

Lemma getUserChannelName_same (fuel : nat) (h ch : Z) (out : std_string)
    (persistent : bool) (w : World K) :
  getUserChannelName d1 fuel h ch out persistent w
  = getUserChannelName d2 fuel h ch out persistent w.
Proof.
  unfold getUserChannelName, bind. rewrite sendReportAndWaitForReply_same.
  reflexivity.
Qed.

Lemma getFieldUnit_same (h ch : Z) (out : std_string) (w : World K) :
  getFieldUnit d1 h ch out w = getFieldUnit d2 h ch out w.
Proof.
  unfold getFieldUnit, getChannelName, bind. rewrite getStringDescriptor_same.
  reflexivity.
Qed.

(** The field-descriptor query always returns, and leaves the same world
    on either device, whatever it answers. *)
Lemma getFieldInfo_same_world (h ch : Z) (finfo : hiddev_field_info) (w : World K) :
  exists st1 f1 st2 f2 w',
    getFieldInfo d1 h ch finfo w = Returns (st1, f1) w'
    /\ getFieldInfo d2 h ch finfo w = Returns (st2, f2) w'.
Proof.
  destruct Hsame as (_ & _ & _ & _ & _ & _ & Hf).
  unfold getFieldInfo, bind. rewrite !syscall_run.
  match goal with
  | |- context [HIDIOCGFIELDINFO d1 h ?f (kernel w)] =>
      specialize (Hf h f (kernel w));
      destruct (HIDIOCGFIELDINFO d1 h f (kernel w)) as [[r1 g1] k1];
      destruct (HIDIOCGFIELDINFO d2 h f (kernel w)) as [[r2 g2] k2]
  end.
  simpl in Hf. subst k2. cbn [fst snd].
  destruct (r1 <? 0), (r2 <? 0); do 5 eexists; split; reflexivity.
Qed.

End SameButFieldInfo.

Lemma is_OK_true (st : EOakStatus) : is_OK st = true <-> st = eOakStatusOK.
Proof. destruct st; cbv; split; intros H; try reflexivity; discriminate H. Qed.

(** The status of [getChannelInfo] is that of the name query when it
    fails, and that of the unit query otherwise. *)
Lemma getChannelInfo_status_source {K} (dev : HidDev K) (fuel : nat) (h ch : Z)
    (info : ChannelInfo) (finfo : hiddev_field_info) (w : World K)
    (st : EOakStatus) (ci : ChannelInfo) :
  result_of (getChannelInfo dev fuel h ch info finfo w) = Some (st, ci) ->
  (st <> eOakStatusOK /\
     exists name w1,
       getChannelName dev h ch (channelName info) w = Returns (st, name) w1)
  \/ (exists name w1 w4 w5,
        getChannelName dev h ch (channelName info) w
        = Returns (eOakStatusOK, name) w1
        /\ getFieldUnit dev h ch (unit_ info) w4 = Returns (st, unit_ ci) w5).
Proof.
  unfold getChannelInfo, bind. intros Hres.
  destruct (getChannelName dev h ch (channelName info) w)
    as [[st0 name] w1|w1]; [|discriminate Hres].
  destruct (is_OK st0) eqn:Hok; cbn [negb] in Hres.
  - apply is_OK_true in Hok. subst st0. right.
    destruct (getUserChannelName dev fuel h ch _ true w1)
      as [[s2 pname] w2|w2]; [|discriminate Hres].
    destruct (getUserChannelName dev fuel h ch _ false w2)
      as [[s3 vname] w3|w3]; [|discriminate Hres].
    destruct (getFieldInfo dev h ch finfo w3)
      as [[s4 finfo'] w4|w4]; [|discriminate Hres].
    cbn [unit_] in Hres.
    destruct (getFieldUnit dev h ch (unit_ info) w4)
      as [[s5 u] w5|w5] eqn:Hunit; [|discriminate Hres].
    unfold ret in Hres. cbn [result_of] in Hres.
    injection Hres as <- <-. cbn [unit_].
    exists name, w1, w4, w5. split; [reflexivity | exact Hunit].
  - left. unfold ret in Hres. cbn [result_of] in Hres. injection Hres as <- _.
    split; [|exists name, w1; reflexivity].
    intros ->. discriminate Hok.
Qed.

(** C10. Two devices that differ only in what the field-descriptor query
    answers make [getChannelInfo] end with the same status (and in the same
    world); that status comes from the channel-name query when it fails and
    from the unit-name query otherwise. *)
Theorem getChannelInfo_status_ignores_fieldinfo {K} (d1 d2 : HidDev K)
    (fuel : nat) (h ch : Z) (info : ChannelInfo) (finfo : hiddev_field_info)
    (w : World K) :
  same_but_fieldinfo d1 d2 ->
  let o1 := getChannelInfo d1 fuel h ch info finfo w in
  let o2 := getChannelInfo d2 fuel h ch info finfo w in
  (fst <$> result_of o1 = fst <$> result_of o2 /\ world_of o1 = world_of o2)
  /\ (forall st ci, result_of o1 = Some (st, ci) ->
        (st <> eOakStatusOK /\
           exists name w1,
             getChannelName d1 h ch (channelName info) w = Returns (st, name) w1)
        \/ (exists name w1 w4 w5,
              getChannelName d1 h ch (channelName info) w
              = Returns (eOakStatusOK, name) w1
              /\ getFieldUnit d1 h ch (unit_ info) w4
                 = Returns (st, unit_ ci) w5)).
Proof.
  intros Hsame o1 o2. subst o1 o2.
  split; [|intros st ci; apply getChannelInfo_status_source].
  unfold getChannelInfo, bind.
  assert (Hname : forall out w0,
            getChannelName d1 h ch out w0 = getChannelName d2 h ch out w0)
    by (intros out w0; apply getStringDescriptor_same; exact Hsame).
  rewrite Hname.
  destruct (getChannelName d2 h ch (channelName info) w)
    as [[st0 name] w1|w1]; [|split; reflexivity].
  destruct (negb (is_OK st0)); [split; reflexivity|].
  cbn [persistentUserChannelName volatileUserChannelName unit_].
  rewrite (getUserChannelName_same d1 d2 Hsame).
  destruct (getUserChannelName d2 fuel h ch _ true w1)
    as [[s2 pname] w2|w2]; [|split; reflexivity].
  rewrite (getUserChannelName_same d1 d2 Hsame).
  destruct (getUserChannelName d2 fuel h ch _ false w2)
    as [[s3 vname] w3|w3]; [|split; reflexivity].
  destruct (getFieldInfo_same_world d1 d2 Hsame h ch finfo w3)
    as (st1 & f1 & st2 & f2 & w4 & Hrun1 & Hrun2).
  rewrite Hrun1, Hrun2.
  rewrite (getFieldUnit_same d1 d2 Hsame).
  destruct (getFieldUnit d2 h ch (unit_ info) w4) as [[s5 u] w5|w5];
    split; reflexivity.
Qed.

Lemma getChannelInfo_status_ignores_fieldinfo_witness :
  fst <$> result_of (getFieldInfo (Sim.device Sim.healthy) 3 0
                       Sim.temperature_field Sim.boot)
  = Some eOakStatusOK
  /\ fst <$> result_of (getFieldInfo (Sim.device Sim.no_fieldinfo) 3 0
                          Sim.temperature_field Sim.boot)
     = Some eOakStatusInternalError
  /\ fst <$> result_of (getChannelInfo (Sim.device Sim.no_fieldinfo) 1 3 0
                          Sim.blank_info Sim.temperature_field Sim.boot)
     = Some eOakStatusOK.
Proof.
  assert (Hsame : same_but_fieldinfo (Sim.device Sim.healthy)
                    (Sim.device Sim.no_fieldinfo))
    by (repeat split; reflexivity).
  split; [reflexivity|]. split; [reflexivity|].
  destruct (getChannelInfo_status_ignores_fieldinfo (Sim.device Sim.healthy)
              (Sim.device Sim.no_fieldinfo) 1 3 0 Sim.blank_info
              Sim.temperature_field Sim.boot Hsame) as [[Hst _] _].
  rewrite <- Hst. reflexivity.
Defined.

(** * Further properties *)

(** ** Report codec: what a written string leaves behind *)

Lemma c_str_app_no_NUL (s rest : list byte) :
  NUL ∉ s -> c_str (s ++ rest) = s ++ c_str rest.
Proof.
  induction s as [|b s IH]; intros Hs; [reflexivity|].
  apply not_elem_of_cons in Hs as [Hb Hs]. simpl.
  destruct (is_NUL b) eqn:Hnul.
  - apply is_NUL_true in Hnul. congruence.
  - rewrite IH by exact Hs. reflexivity.
Qed.

Lemma c_str_at_NUL (buf : list byte) : buf !! 0%nat = Some NUL -> c_str buf = [].
Proof. destruct buf as [|b buf]; simpl; [reflexivity|]. intros [= ->]. reflexivity. Qed.

Lemma memcpy_at_split (dst src : list byte) (off : nat) :
  (off + length src <= length dst)%nat ->
  memcpy_at dst off src = take off dst ++ src ++ drop (off + length src) dst.
Proof.
  intros Hfit. unfold memcpy_at.
  rewrite <- (take_drop off dst) at 1.
  rewrite <- (take_drop (length src) (drop off dst)) at 1.
  replace off with (length (take off dst) + 0)%nat at 1
    by (rewrite length_take; lia).
  rewrite list_inserts_app_r.
  rewrite list_inserts_0_r by (rewrite length_take, length_drop; lia).
  rewrite drop_drop. reflexivity.
Qed.

Lemma putStringInReport_c_str (report : OakFeatureReport)
    (theString : std_string) :
  well_sized report -> NUL ∉ theString ->
  c_str (drop 5 (snd (putStringInReport report theString)))
  = take 20 theString
    ++ c_str (drop (5 + Nat.min (length theString) 20) report).
Proof.
  intros Hsz Hnul. rewrite putStringInReport_payload.
  unfold well_sized, kFeatureReportSize in Hsz.
  assert (Hlen : length (take 20 theString) = Nat.min (length theString) 20)
    by (rewrite length_take; lia).
  rewrite memcpy_at_split by (rewrite Hlen, Hsz; lia).
  rewrite drop_app_length' by (rewrite length_take; lia).
  rewrite c_str_app_no_NUL.
  - rewrite Hlen. reflexivity.
  - intros Hin. apply Hnul.
    apply list_elem_of_lookup in Hin as [i Hi].
    apply lookup_take_Some in Hi as [Hi _].
    apply list_elem_of_lookup. exists i. exact Hi.
Qed.

(** X1. No terminator is written: after [putStringInReport] the C string
    at offset 5 is the (clamped) string followed by whatever the report
    held behind it. So the string reads back as it was passed (clamped to
    20 bytes) exactly when the byte behind it is zero, as in a fresh
    command report. *)
Theorem putStringInReport_read_back (report : OakFeatureReport)
    (theString : std_string) :
  well_sized report -> NUL ∉ theString ->
  let tail := drop (5 + Nat.min (length theString) 20) report in
  let written := c_str (drop 5 (snd (putStringInReport report theString))) in
  written = take 20 theString ++ c_str tail
  /\ (written = take 20 theString <-> tail !! 0%nat = Some NUL).
Proof.
  intros Hsz Hnul tail written. subst written.
  rewrite (putStringInReport_c_str report theString Hsz Hnul). fold tail.
  split; [reflexivity|].
  assert (Htail : tail <> []).
  { subst tail. intros Hnil. apply (f_equal length) in Hnil.
    rewrite length_drop in Hnil. unfold well_sized, kFeatureReportSize in Hsz.
    simpl in Hnil. lia. }
  split.
  - intros Heq. rewrite <- (app_nil_r (take 20 theString)) in Heq at 2.
    apply app_inv_head in Heq.
    destruct tail as [|b tail']; [contradiction|]. simpl in *.
    destruct (is_NUL b) eqn:Hb; [|discriminate Heq].
    apply is_NUL_true in Hb. rewrite Hb. reflexivity.
  - intros Hzero. rewrite (c_str_at_NUL tail Hzero), app_nil_r. reflexivity.
Qed.

Lemma putStringInReport_read_back_witness :
  c_str (drop 5 (snd (putStringInReport
                        (snd (putStringInReport Sim.name_query (str "outdoor")))
                        (str "in"))))
  = str "intdoor".
Proof.
  assert (Hsz : well_sized (snd (putStringInReport Sim.name_query (str "outdoor"))))
    by reflexivity.
  assert (Hnul : NUL ∉ str "in").
  { intros Hin. apply list_elem_of_In in Hin. simpl in Hin.
    destruct Hin as [H|[H|[]]]; discriminate H. }
  destruct (putStringInReport_read_back _ (str "in") Hsz Hnul) as [Heq _].
  rewrite Heq. reflexivity.
Defined.

(** ** Bytes and usage values *)

Lemma nth_map_seq_id (l : list Z) :
  map (fun i => nth i l 0) (seq 0 (length l)) = l.
Proof.
  induction l as [|a l IH]; [reflexivity|].
  simpl. f_equal. rewrite <- seq_shift, map_map. exact IH.
Qed.

(** X2. The two conversion loops are inverse on reports: the values that
    [sendFeatureReport] hands out, read back by the loop of
    [readFeatureReport], give the report again; in the other direction each
    value comes back reduced modulo 256. *)
Theorem report_values_round_trip (report : OakFeatureReport) (values : nat -> Z) :
  well_sized report ->
  report_of_values (fun i => nth i (report_values report) 0) = report
  /\ report_values (report_of_values values)
     = map (fun i => to_uchar (values i)) (seq 0 kFeatureReportSize).
Proof.
  intros Hsz. split.
  - rewrite (report_values_map report Hsz). unfold report_of_values.
    unfold well_sized in Hsz. rewrite <- Hsz.
    rewrite <- (length_map int_of_byte report) at 1.
    rewrite <- (map_map (fun i => nth i (map int_of_byte report) 0) byte_of_int).
    rewrite nth_map_seq_id, map_map.
    rewrite <- (map_id report) at 2. apply map_ext. apply byte_of_int_of_byte.
  - rewrite (report_values_map _ (report_of_values_sized values)).
    unfold report_of_values. rewrite map_map.
    apply map_ext. intros i. apply int_of_byte_of_int.
Qed.

Lemma report_values_round_trip_witness :
  report_of_values (fun i => nth i (report_values Sim.name_query) 0)
  = Sim.name_query.
Proof.
  assert (Hsz : well_sized Sim.name_query) by reflexivity.
  exact (proj1 (report_values_round_trip Sim.name_query (fun _ => 0) Hsz)).
Defined.

(** ** Protocol engine: what a transaction can end in *)

Lemma readFeatureReport_post {K} (dev : HidDev K) (h : Z)
    (report r : OakFeatureReport) (st : EOakStatus) (w w' : World K) :
  readFeatureReport dev h report w = Returns (st, r) w' ->
  (st = eOakStatusOK /\ well_sized r) \/ (st = eOakStatusReadError /\ r = report).
Proof.
  rewrite readFeatureReport_run. cbv zeta.
  destruct (_ =? -1); [intros [= <- <- _]; right; split; reflexivity|].
  destruct (_ =? -1); intros [= <- <- _].
  - right. split; reflexivity.
  - left. split; [reflexivity | apply report_of_values_sized].
Qed.

Lemma waitReady_S {K} (dev : HidDev K) (fuel : nat) (h : Z) (w : World K) :
  waitReady dev (S fuel) h w
  = match readFeatureReport dev h (tempReport w) w with
    | Returns (st, t) w1 =>
        let w2 := mk_World (kernel w1) t (trace w1) in
        if negb (is_OK st) then Returns st w2
        else if negb (0xff =? int_of_byte (report_at t 0))
             then waitReady dev fuel h w2
             else Returns eOakStatusOK w2
    | OutOfFuel w1 => OutOfFuel w1
    end.
Proof.
  cbn [waitReady]. unfold bind, get_tempReport, set_tempReport, ret.
  destruct (readFeatureReport dev h (tempReport w) w) as [[st t] w1|w1];
    [|reflexivity].
  cbv zeta. destruct (negb (is_OK st)); [reflexivity|].
  destruct (negb (0xff =? int_of_byte (report_at t 0))); reflexivity.
Qed.

Lemma waitReply_S {K} (dev : HidDev K) (fuel : nat) (h : Z)
    (report : OakFeatureReport) (w : World K) :
  waitReply dev (S fuel) h report w
  = match readFeatureReport dev h report w with
    | Returns (st, r) w1 =>
        if negb (is_OK st) then Returns (st, r) w1
        else if negb (0xff =? int_of_byte (report_at r 0))
             then waitReply dev fuel h r w1
             else Returns (eOakStatusOK, r) w1
    | OutOfFuel w1 => OutOfFuel w1
    end.
Proof.
  cbn [waitReply]. unfold bind, ret.
  destruct (readFeatureReport dev h report w) as [[st r] w1|w1]; [|reflexivity].
  destruct (negb (is_OK st)); [reflexivity|].
  destruct (negb (0xff =? int_of_byte (report_at r 0))); reflexivity.
Qed.

Lemma waitReady_status {K} (dev : HidDev K) (fuel : nat) (h : Z)
    (st : EOakStatus) (w w' : World K) :
  waitReady dev fuel h w = Returns st w' ->
  st = eOakStatusOK \/ st = eOakStatusReadError.
Proof.
  revert w. induction fuel as [|fuel IH]; intros w; [discriminate|].
  rewrite waitReady_S.
  destruct (readFeatureReport dev h (tempReport w) w) as [[st1 t] w1|w1] eqn:Hread;
    [|discriminate].
  apply readFeatureReport_post in Hread. cbv zeta.
  destruct (is_OK st1) eqn:Hok; cbn [negb].
  - destruct (negb (0xff =? int_of_byte (report_at t 0))).
    + apply IH.
    + intros [= <- _]. left. reflexivity.
  - intros [= <- _]. destruct Hread as [[-> _]|[-> _]]; [discriminate Hok|].
    right. reflexivity.
Qed.

Lemma waitReply_post {K} (dev : HidDev K) (fuel : nat) (h : Z)
    (report r : OakFeatureReport) (st : EOakStatus) (w w' : World K) :
  waitReply dev fuel h report w = Returns (st, r) w' ->
  (st = eOakStatusOK /\ int_of_byte (report_at r 0) = 0xff /\ well_sized r)
  \/ (st = eOakStatusReadError /\
      (r = report \/ (well_sized r /\ int_of_byte (report_at r 0) <> 0xff))).
Proof.
  revert report w. induction fuel as [|fuel IH]; intros report w; [discriminate|].
  rewrite waitReply_S.
  destruct (readFeatureReport dev h report w) as [[st1 r1] w1|w1] eqn:Hread;
    [|discriminate].
  apply readFeatureReport_post in Hread.
  destruct (is_OK st1) eqn:Hok; cbn [negb].
  - destruct Hread as [[_ Hsz]|[-> _]]; [|discriminate Hok].
    destruct (Z.eqb_spec 0xff (int_of_byte (report_at r1 0))) as [Hff|Hbusy];
      cbn [negb].
    + intros [= <- <- _]. left. split; [reflexivity|]. split; [lia | exact Hsz].
    + intros Hrec. destruct (IH _ _ Hrec) as [Hdone|[-> [-> | Hmid]]].
      * left. exact Hdone.
      * right. split; [reflexivity|]. right. split; [exact Hsz | lia].
      * right. split; [reflexivity|]. right. exact Hmid.
  - intros [= <- <- _]. destruct Hread as [[-> _]|[-> ->]]; [discriminate Hok|].
    right. split; [reflexivity|]. left. reflexivity.
Qed.

Lemma sendFeatureReport_status {K} (dev : HidDev K) (h : Z)
    (report : OakFeatureReport) (st : EOakStatus) (w w' : World K) :
  sendFeatureReport dev h report w = Returns st w' ->
  st = eOakStatusOK \/ st = eOakStatusWriteError.
Proof.
  rewrite sendFeatureReport_run. cbv zeta.
  destruct (_ =? -1); [intros [= <- _]; right; reflexivity|].
  destruct (_ =? -1); intros [= <- _]; [right | left]; reflexivity.
Qed.

(** X3. A transaction that returns does so with OK, ReadError or
    WriteError, and nothing else. With OK, byte 0 of the report handed back
    is 0xff; with WriteError the report is the caller's, untouched; with
    ReadError it is either untouched or a complete reply whose byte 0 is
    not 0xff. *)
Theorem sendReportAndWaitForReply_post {K} (dev : HidDev K) (fuel : nat)
    (h : Z) (report r : OakFeatureReport) (st : EOakStatus) (w : World K) :
  result_of (sendReportAndWaitForReply dev fuel h report w) = Some (st, r) ->
  (st = eOakStatusOK /\ int_of_byte (report_at r 0) = 0xff /\ well_sized r)
  \/ (st = eOakStatusWriteError /\ r = report)
  \/ (st = eOakStatusReadError /\
      (r = report \/ (well_sized r /\ int_of_byte (report_at r 0) <> 0xff))).
Proof.
  unfold sendReportAndWaitForReply, bind.
  destruct (waitReady dev fuel h w) as [st1 w1|w1] eqn:Hready; [|discriminate].
  apply waitReady_status in Hready.
  destruct (is_OK st1) eqn:Hok1; cbn [negb].
  - destruct (sendFeatureReport dev h report w1) as [st2 w2|w2] eqn:Hsend;
      [|discriminate].
    apply sendFeatureReport_status in Hsend.
    destruct (is_OK st2) eqn:Hok2; cbn [negb].
    + destruct (waitReply dev fuel h report w2) as [[st3 r3] w3|w3] eqn:Hreply;
        [|discriminate].
      intros [= <- <-]. apply waitReply_post in Hreply.
      destruct Hreply as [Hdone|Hfail]; [left; exact Hdone | right; right; exact Hfail].
    + unfold ret. intros [= <- <-].
      destruct Hsend as [-> | ->]; [discriminate Hok2|].
      right; left. split; reflexivity.
  - unfold ret. intros [= <- <-].
    destruct Hready as [-> | ->]; [discriminate Hok1|].
    right; right. split; [reflexivity|]. left. reflexivity.
Qed.

Lemma sendReportAndWaitForReply_post_witness :
  int_of_byte
    (report_at
       (report_of_values (fun i => nth i [255; 79; 97; 107] 0)) 0) = 0xff.
Proof.
  assert (Hrun : result_of (sendReportAndWaitForReply (Sim.device Sim.healthy) 1 3
                              Sim.name_query Sim.boot)
                 = Some (eOakStatusOK,
                         report_of_values (fun i => nth i [255; 79; 97; 107] 0)))
    by reflexivity.
  destruct (sendReportAndWaitForReply_post _ _ _ _ _ _ _ Hrun)
    as [(_ & Hff & _)|[[Hst _]|[Hst _]]];
    [exact Hff | discriminate Hst | discriminate Hst].
Defined.

(** ** Protocol engine: the iteration budget *)





(** ** Protocol engine: a device that never becomes ready *)

Lemma waitReady_never_ready {K} (dev : HidDev K) (fuel : nat) (h : Z) (w : World K) :
  never_ready dev ->
  exists w' tr,
    waitReady dev fuel h w = OutOfFuel w'
    /\ trace w' = trace w ++ tr
    /\ polls_only tr
    /\ length tr = (2 * fuel)%nat.
Proof.
  intros Hbusy. revert w. induction fuel as [|fuel IH]; intros w.
  - exists w, []. simpl. rewrite app_nil_r.
    split; [reflexivity|]. split; [reflexivity|]. split; [constructor | reflexivity].
  - rewrite waitReady_S, readFeatureReport_run. cbv zeta.
    destruct (Hbusy h (kernel w)) as (Hg & _ & _).
    destruct (Hbusy h (snd (HIDIOCGREPORT dev h (kernel w)))) as (_ & Hu & Hff).
    destruct (Z.eqb_spec (fst (HIDIOCGREPORT dev h (kernel w))) (-1));
      [contradiction|].
    destruct (Z.eqb_spec (fst (fst (HIDIOCGUSAGES dev h
                (snd (HIDIOCGREPORT dev h (kernel w)))))) (-1)); [contradiction|].
    cbn [is_OK EOakStatus_eqb negb kernel trace].
    rewrite report_of_values_head.
    destruct (Z.eqb_spec 0xff (to_uchar (snd (fst (HIDIOCGUSAGES dev h
                (snd (HIDIOCGREPORT dev h (kernel w))))) 0%nat))) as [Heq|_];
      [symmetry in Heq; contradiction|].
    cbn [negb].
    match goal with
    | |- exists w' tr, waitReady dev fuel h ?w1 = _ /\ _ =>
        destruct (IH w1) as (w' & tr & Hrun & Htr & Hp & Hlen)
    end.
    exists w', ([EvGREPORT h; EvGUSAGES h] ++ tr).
    split; [exact Hrun|]. cbn [trace] in Htr.
    split; [rewrite Htr, <- app_assoc; reflexivity|].
    split; [apply Forall_app; split; [repeat constructor | exact Hp]|].
    rewrite length_app, Hlen. simpl. lia.
Qed.

(** X5. There is no bound in the code on the first polling loop: on a
    device whose reads all succeed with a byte 0 other than 0xff, every
    iteration budget is used up by reads alone, two kernel calls each, and
    the caller's report is never handed to the device. *)
Theorem sendReportAndWaitForReply_never_ready {K} (dev : HidDev K) (fuel : nat)
    (h : Z) (report : OakFeatureReport) (w : World K) :
  never_ready dev ->
  exists w' tr,
    sendReportAndWaitForReply dev fuel h report w = OutOfFuel w'
    /\ trace w' = trace w ++ tr
    /\ polls_only tr
    /\ no_send tr
    /\ length tr = (2 * fuel)%nat.
Proof.
  intros Hbusy.
  destruct (waitReady_never_ready dev fuel h w Hbusy)
    as (w' & tr & Hrun & Htr & Hp & Hlen).
  exists w', tr. unfold sendReportAndWaitForReply, bind. rewrite Hrun.
  split; [reflexivity|]. split; [exact Htr|]. split; [exact Hp|].
  split; [apply polls_only_no_send; exact Hp | exact Hlen].
Qed.

Lemma sendReportAndWaitForReply_never_ready_witness :
  result_of (sendReportAndWaitForReply Sim2.stuck 40 3 Sim.name_query Sim.boot)
  = None.
Proof.
  assert (Hbusy : never_ready Sim2.stuck).
  { intros h k. simpl. repeat split; discriminate. }
  destruct (sendReportAndWaitForReply_never_ready Sim2.stuck 40 3
              Sim.name_query Sim.boot Hbusy) as (w' & tr & Hrun & _).
  rewrite Hrun. reflexivity.
Defined.

(** ** User names: what is handed out *)

Lemma c_str_cut (s rest : list byte) : c_str (s ++ NUL :: rest) = c_str s.
Proof.
  induction s as [|b s IH]; [reflexivity|].
  simpl. destruct (is_NUL b); [reflexivity|]. rewrite IH. reflexivity.
Qed.

Lemma getStringFromReport_payload (report : OakFeatureReport) (out : std_string) :
  well_sized report ->
  snd (getStringFromReport report out) = c_str (take 20 (drop 1 report)).
Proof.
  unfold well_sized, kFeatureReportSize, getStringFromReport. intros Hsz. simpl.
  rewrite insert_take_drop by lia.
  rewrite drop_app_le by (rewrite length_take; lia).
  rewrite c_str_cut.
  rewrite take_drop_commute. reflexivity.
Qed.

Lemma report_init_sized (bs : list Z) : well_sized (report_init bs).
Proof.
  unfold well_sized, report_init.
  rewrite length_take, length_app, length_map, length_replicate. lia.
Qed.

Lemma sendReportAndWaitForReply_sized {K} (dev : HidDev K) (fuel : nat)
    (h : Z) (report r : OakFeatureReport) (st : EOakStatus) (w w' : World K) :
  well_sized report ->
  sendReportAndWaitForReply dev fuel h report w = Returns (st, r) w' ->
  well_sized r.
Proof.
  intros Hsz. unfold sendReportAndWaitForReply, bind.
  destruct (waitReady dev fuel h w) as [st1 w1|w1]; [|discriminate].
  destruct (negb (is_OK st1)); [unfold ret; intros [= _ <- _]; exact Hsz|].
  destruct (sendFeatureReport dev h report w1) as [st2 w2|w2]; [|discriminate].
  destruct (negb (is_OK st2)); [unfold ret; intros [= _ <- _]; exact Hsz|].
  intros Hreply. apply waitReply_post in Hreply.
  destruct Hreply as [(_ & _ & H)|[_ [-> | [H _]]]]; assumption.
Qed.

(** X6. Whatever the transaction ends in, [getUserChannelName] returns OK
    and hands out the C string held in bytes 1..20 of the report the
    transaction leaves, replacing what the out string held; it has at most
    20 characters. *)
Theorem getUserChannelName_payload {K} (dev : HidDev K) (fuel : nat)
    (h ch : Z) (out : std_string) (persistent : bool)
    (st : EOakStatus) (r : OakFeatureReport) (w w' : World K) :
  sendReportAndWaitForReply dev fuel h
    (report_init [1; if persistent then 1 else 0; 0x15; to_uchar ch; 0]) w
  = Returns (st, r) w' ->
  getUserChannelName dev fuel h ch out persistent w
  = Returns (eOakStatusOK, c_str (take 20 (drop 1 r))) w'
  /\ (length (c_str (take 20 (drop 1 r))) <= 20)%nat.
Proof.
  intros Hrun.
  pose proof (sendReportAndWaitForReply_sized dev fuel h _ r st w w'
                (report_init_sized _) Hrun) as Hsz.
  split.
  - unfold getUserChannelName, bind. rewrite Hrun.
    rewrite <- (getStringFromReport_payload r out Hsz). reflexivity.
  - etransitivity; [apply c_str_length|]. rewrite length_take. lia.
Qed.

Lemma getUserChannelName_payload_witness :
  result_of (getUserChannelName (Sim.device Sim.healthy) 1 3 0 (str "old") false
               Sim.boot)
  = Some (eOakStatusOK, str "Oak").
Proof.
  destruct (sendReportAndWaitForReply (Sim.device Sim.healthy) 1 3
              (report_init [1; 0; 0x15; to_uchar 0; 0]) Sim.boot)
    as [[st r] w'|w'] eqn:Hrun; [|discriminate Hrun].
  destruct (getUserChannelName_payload (Sim.device Sim.healthy) 1 3 0 (str "old")
              false st r Sim.boot w' Hrun) as [Hname _].
  rewrite Hname. injection Hrun as _ <- _. reflexivity.
Defined.

(** X7. Only the low byte of the channel index reaches the device: two
    indices that agree modulo 256 run the same name query, and an index
    that is 0 modulo 256 runs the query of [getUserDeviceName]. *)
Theorem getUserChannelName_index_byte {K} (dev : HidDev K) (fuel : nat)
    (h ch ch' : Z) (out : std_string) (persistent : bool) (w : World K) :
  to_uchar ch = to_uchar ch' ->
  getUserChannelName dev fuel h ch out persistent w
  = getUserChannelName dev fuel h ch' out persistent w
  /\ (to_uchar ch = 0 ->
      getUserChannelName dev fuel h ch out persistent w
      = getUserDeviceName dev fuel h out persistent w).
Proof.
  intros Heq. unfold getUserChannelName, getUserDeviceName.
  split.
  - rewrite Heq. reflexivity.
  - intros ->. reflexivity.
Qed.

Lemma getUserChannelName_index_byte_witness :
  getUserChannelName (Sim.device Sim.healthy) 1 3 256 [] true Sim.boot
  = getUserDeviceName (Sim.device Sim.healthy) 1 3 [] true Sim.boot.
Proof.
  assert (Heq : to_uchar 256 = to_uchar 512) by reflexivity.
  assert (Hzero : to_uchar 256 = 0) by reflexivity.
  destruct (getUserChannelName_index_byte (Sim.device Sim.healthy) 1 3 256 512 []
              true Sim.boot Heq) as [_ Hdev].
  exact (Hdev Hzero).
Defined.

(** ** Interrupt reports: steady state *)

Lemma readInterruptReport_run {K} (dev : HidDev K) (h : Z)
    (outReadValues : list Z) (w : World K) :
  let rd := fst (fst (sys_read dev h sizeof_ev (kernel w))) in
  let ev := snd (fst (sys_read dev h sizeof_ev (kernel w))) in
  let k' := snd (sys_read dev h sizeof_ev (kernel w)) in
  let N := Z.to_nat (rd / sizeof_event) in
  sizeof_event <= rd <= sizeof_ev ->
  Z.of_nat (length outReadValues) <= INT_MAX ->
  readInterruptReport dev h outReadValues w
  = Returns (eOakStatusOK, map (fun i => value (ev i)) (seq 0 N))
      (mk_World k' (tempReport w)
         (trace w ++ EvRead h sizeof_ev ::
            (if decide (length outReadValues = N) then []
             else [EvResize (Z.of_nat N)]))).
Proof.
  intros rd ev k' N Hrd Hmax.
  unfold readInterruptReport, bind. rewrite syscall_run.
  fold rd ev k'.
  destruct (sys_read dev h sizeof_ev (kernel w)) as [[rd0 ev0] k0].
  simpl in rd, ev, k'. subst rd ev k'.
  unfold sizeof_ev, sizeof_event in *. cbn [fst snd].
  rewrite (to_int_id rd0) by (unfold in_int, INT_MIN, INT_MAX; lia).
  destruct (Z.ltb_spec rd0 8); [lia|].
  assert (Hq : 1 <= rd0 / 8 <= 64).
  { split; [apply Z.div_le_lower_bound; lia | apply Z.div_le_upper_bound; lia]. }
  rewrite (to_int_id (rd0 / 8)) by (unfold in_int, INT_MIN, INT_MAX; lia).
  rewrite (to_int_id (Z.of_nat (length outReadValues)))
    by (apply in_int_of_nat; exact Hmax).
  fold N. assert (HNz : Z.of_nat N = rd0 / 8) by (subst N; lia).
  destruct (Z.eqb_spec (rd0 / 8) (Z.of_nat (length outReadValues))) as [Hsame|Hdiff];
    cbn [negb]; destruct (decide (length outReadValues = N)) as [Hlen|Hlen];
    try lia.
  - unfold ret. do 2 f_equal.
    destruct (fill_lookup (fun i => value (ev0 i)) N outReadValues) as (Hl & Hlow & _);
      [lia|].
    apply filled_is_map; [rewrite Hl; exact Hlen | exact Hlow].
  - unfold ret, emit. cbn [kernel tempReport trace].
    rewrite <- app_assoc, HNz. do 2 f_equal.
    destruct (fill_lookup (fun i => value (ev0 i)) N (resize (rd0 / 8) outReadValues))
      as (Hl & Hlow & _); [rewrite resize_length; lia|].
    apply filled_is_map; [|exact Hlow].
    rewrite Hl, resize_length. reflexivity.
Qed.

(** X8. The vector settles after one call: when two reads in a row return
    the same number of complete events, the second call of
    [readInterruptReport] on the vector the first one filled does not
    resize it. *)
Theorem readInterruptReport_steady {K} (dev : HidDev K) (h : Z)
    (outReadValues : list Z) (w : World K) :
  let rd1 := fst (fst (sys_read dev h sizeof_ev (kernel w))) in
  let k1 := snd (sys_read dev h sizeof_ev (kernel w)) in
  let rd2 := fst (fst (sys_read dev h sizeof_ev k1)) in
  let ev2 := snd (fst (sys_read dev h sizeof_ev k1)) in
  let N := Z.to_nat (rd1 / sizeof_event) in
  sizeof_event <= rd1 <= sizeof_ev ->
  sizeof_event <= rd2 <= sizeof_ev ->
  rd2 / sizeof_event = rd1 / sizeof_event ->
  Z.of_nat (length outReadValues) <= INT_MAX ->
  exists v1 w1,
    readInterruptReport dev h outReadValues w = Returns (eOakStatusOK, v1) w1
    /\ length v1 = N
    /\ readInterruptReport dev h v1 w1
       = Returns (eOakStatusOK, map (fun i => value (ev2 i)) (seq 0 N))
           (mk_World (snd (sys_read dev h sizeof_ev k1)) (tempReport w)
              (trace w1 ++ [EvRead h sizeof_ev])).
Proof.
  intros rd1 k1 rd2 ev2 N Hrd1 Hrd2 Hsame Hmax.
  pose proof (readInterruptReport_run dev h outReadValues w Hrd1 Hmax) as Hfirst.
  fold rd1 k1 N in Hfirst.
  eexists _, _. split; [exact Hfirst|].
  assert (HlenN : length (map (fun i =>
            value (snd (fst (sys_read dev h sizeof_ev (kernel w))) i)) (seq 0 N)) = N)
    by (rewrite length_map, length_seq; reflexivity).
  split; [exact HlenN|].
  assert (HN64 : (N <= 64)%nat).
  { subst N. unfold sizeof_ev, sizeof_event in *.
    assert (rd1 / 8 <= 64) by (apply Z.div_le_upper_bound; lia). lia. }
  match goal with
  | |- readInterruptReport dev h ?v ?w1 = _ =>
      pose proof (readInterruptReport_run dev h v w1) as Hsecond
  end.
  cbn [kernel tempReport trace] in Hsecond. fold k1 rd2 ev2 in Hsecond.
  rewrite Hsame in Hsecond. fold N in Hsecond.
  rewrite HlenN in Hsecond.
  rewrite Hsecond; [|exact Hrd2 | unfold INT_MAX; lia].
  destruct (decide (N = N)) as [_|Hne]; [reflexivity | contradiction].
Qed.

Lemma readInterruptReport_steady_witness :
  exists v1 w1,
    readInterruptReport (Sim.device Sim.healthy) 3 [] Sim.boot
    = Returns (eOakStatusOK, v1) w1
    /\ trace (world_of (readInterruptReport (Sim.device Sim.healthy) 3 v1 w1))
       = [EvRead 3 sizeof_ev; EvResize 2; EvRead 3 sizeof_ev].
Proof.
  assert (Hrd : sizeof_event <= 16 <= sizeof_ev)
    by (unfold sizeof_ev, sizeof_event; lia).
  assert (Hmax : Z.of_nat (length (@nil Z)) <= INT_MAX) by (vm_compute; discriminate).
  destruct (readInterruptReport_steady (Sim.device Sim.healthy) 3 [] Sim.boot
              Hrd Hrd eq_refl Hmax) as (v1 & w1 & Hfirst & _ & Hsecond).
  exists v1, w1. split; [exact Hfirst|].
  rewrite Hsecond. cbn [world_of trace].
  assert (Hw1 : trace w1 = [EvRead 3 sizeof_ev; EvResize 2]).
  { change (readInterruptReport (Sim.device Sim.healthy) 3 [] Sim.boot)
      with (Returns (K := nat) (eOakStatusOK, [2315; -40])
              (mk_World 1%nat (tempReport Sim.boot)
                 [EvRead 3 sizeof_ev; EvResize 2])) in Hfirst.
    injection Hfirst as _ <-. reflexivity. }
  rewrite Hw1. reflexivity.
Defined.

(** ** Unit name: the shape of the names that carry one *)

Lemma last_occ_split (c : byte) (pre rest : std_string) :
  c ∉ rest -> last_occ c (pre ++ c :: rest) (length pre).
Proof.
  intros Hrest. split.
  - rewrite lookup_app_r by lia. rewrite Nat.sub_diag. reflexivity.
  - intros j Hj Hat. apply Hrest.
    rewrite lookup_app_r in Hat by lia.
    destruct (j - length pre)%nat as [|m] eqn:Hm; [lia|]. simpl in Hat.
    apply list_elem_of_lookup. exists m. exact Hat.
Qed.

Lemma getFieldUnit_parse_shape_intro (pre u suf out : std_string) :
  Z.of_nat (length (pre ++ "["%char :: u ++ "]"%char :: suf)) <= INT_MAX ->
  u <> [] -> ("["%char ∉ u) -> ("["%char ∉ suf) -> ("]"%char ∉ suf) ->
  getFieldUnit_parse (pre ++ "["%char :: u ++ "]"%char :: suf) out
  = (eOakStatusOK, u).
Proof.
  intros Hlen Hu Hopen_u Hopen_suf Hclose_suf.
  assert (Hi : last_occ "[" (pre ++ "["%char :: u ++ "]"%char :: suf) (length pre)).
  { apply last_occ_split. intros Hin. apply elem_of_app in Hin as [Hin|Hin];
      [exact (Hopen_u Hin)|].
    apply elem_of_cons in Hin as [Heq|Hin]; [discriminate Heq | exact (Hopen_suf Hin)]. }
  assert (Hj : last_occ "]" (pre ++ "["%char :: u ++ "]"%char :: suf)
                 (length pre + 1 + length u)).
  { replace (pre ++ "["%char :: u ++ "]"%char :: suf)
      with ((pre ++ "["%char :: u) ++ "]"%char :: suf)
      by (rewrite <- app_assoc; reflexivity).
    replace (length pre + 1 + length u)%nat with (length (pre ++ "["%char :: u))
      by (rewrite length_app; simpl; lia).
    apply last_occ_split. exact Hclose_suf. }
  rewrite (getFieldUnit_parse_spec _ out _ _ Hlen Hi Hj).
  destruct u as [|b u]; [contradiction|].
  destruct (Nat.leb_spec (length pre + 1 + length (b :: u)) (length pre + 1));
    [simpl in *; lia|].
  f_equal. rewrite cons_middle, app_assoc.
  rewrite drop_app_length' by (rewrite length_app; simpl; lia).
  replace (length pre + 1 + length (b :: u) - length pre - 1)%nat
    with (length (b :: u)) by lia.
  rewrite take_app_length. reflexivity.
Qed.

Lemma getFieldUnit_parse_shape_elim (name out u : std_string) :
  Z.of_nat (length name) <= INT_MAX ->
  getFieldUnit_parse name out = (eOakStatusOK, u) ->
  exists pre suf,
    name = pre ++ "["%char :: u ++ "]"%char :: suf
    /\ u <> [] /\ ("["%char ∉ u) /\ ("["%char ∉ suf) /\ ("]"%char ∉ suf).
Proof.
  intros Hlen Hparse.
  destruct (decide ("["%char ∈ name)) as [Ho|Ho];
    [|rewrite (getFieldUnit_parse_no_open _ _ Ho) in Hparse; discriminate Hparse].
  destruct (decide ("]"%char ∈ name)) as [Hc|Hc];
    [|rewrite (getFieldUnit_parse_no_close _ _ Hc) in Hparse; discriminate Hparse].
  destruct (last_occ_exists _ _ Ho) as [i Hi].
  destruct (last_occ_exists _ _ Hc) as [j Hj].
  rewrite (getFieldUnit_parse_spec name out i j Hlen Hi Hj) in Hparse.
  destruct (Nat.leb_spec j (i + 1)) as [|Hlt]; [discriminate Hparse|].
  injection Hparse as <-.
  pose proof (last_occ_tail _ _ _ Hi) as Hopen_tail.
  pose proof (last_occ_tail _ _ _ Hj) as Hclose_tail.
  destruct Hi as [Hi _]. destruct Hj as [Hj _].
  assert (Hmid : drop (S i) name !! (j - i - 1)%nat = Some "]"%char).
  { rewrite lookup_drop. replace (S i + (j - i - 1))%nat with j by lia. exact Hj. }
  assert (Hrest : drop (S i) name
                  = take (j - i - 1) (drop (S i) name)
                    ++ "]"%char :: drop (S j) name).
  { rewrite <- (take_drop_middle _ _ _ Hmid) at 1.
    rewrite drop_drop. do 3 f_equal. lia. }
  exists (take i name), (drop (S j) name).
  split; [|split; [|split; [|split]]].
  - rewrite <- Hrest. symmetry. apply take_drop_middle. exact Hi.
  - intros Hnil. apply (f_equal length) in Hnil.
    rewrite length_take, length_drop in Hnil.
    apply lookup_lt_Some in Hj. simpl in Hnil. lia.
  - intros Hin. apply Hopen_tail. rewrite Hrest.
    apply elem_of_app. left. exact Hin.
  - intros Hin. apply Hopen_tail. rewrite Hrest.
    apply elem_of_app. right. apply elem_of_cons. right. exact Hin.
  - exact Hclose_tail.
Qed.

(** X9. For a channel whose name query succeeds, [getFieldUnit] returns OK
    with unit [u] exactly when the name reads [pre ++ "[" ++ u ++ "]" ++
    suf] with [u] not empty, no '[' in [u] and no bracket of either kind
    in [suf]. *)
Theorem getFieldUnit_shape {K} (dev : HidDev K) (h ch : Z)
    (out name u : std_string) (w w' : World K) :
  getChannelName dev h ch [] w = Returns (eOakStatusOK, name) w' ->
  result_of (getFieldUnit dev h ch out w) = Some (eOakStatusOK, u)
  <-> exists pre suf,
        name = pre ++ "["%char :: u ++ "]"%char :: suf
        /\ u <> [] /\ ("["%char ∉ u) /\ ("["%char ∉ suf) /\ ("]"%char ∉ suf).
Proof.
  intros Hname.
  pose proof (getChannelName_length dev h ch [] name w w' Hname) as Hlen.
  rewrite (getFieldUnit_after_name dev h ch out name w w' Hname).
  cbn [result_of]. split.
  - intros [= Hparse]. apply (getFieldUnit_parse_shape_elim name out u Hlen).
    destruct (getFieldUnit_parse name out) as [st0 u0]. simpl in Hparse.
    injection Hparse as -> ->. reflexivity.
  - intros (pre & suf & -> & Hu & Ho_u & Ho_suf & Hc_suf).
    rewrite (getFieldUnit_parse_shape_intro pre u suf out Hlen Hu Ho_u Ho_suf Hc_suf).
    reflexivity.
Qed.

Lemma getFieldUnit_shape_witness :
  exists pre suf,
    str "Temperature [°C]" = pre ++ "["%char :: str "°C" ++ "]"%char :: suf
    /\ ("]"%char ∉ suf).
Proof.
  assert (Hname : getChannelName (Sim.device Sim.healthy) 3 0 [] Sim.boot
                  = Returns (eOakStatusOK, str "Temperature [°C]")
                      (mk_World 1%nat (tempReport Sim.boot) [EvGSTRING 3 4]))
    by reflexivity.
  assert (Hrun : result_of (getFieldUnit (Sim.device Sim.healthy) 3 0 [] Sim.boot)
                 = Some (eOakStatusOK, str "°C")) by reflexivity.
  destruct (proj1 (getFieldUnit_shape (Sim.device Sim.healthy) 3 0 []
                     (str "Temperature [°C]") (str "°C") Sim.boot _ Hname) Hrun)
    as (pre & suf & Heq & _ & _ & _ & Hclose).
  exists pre, suf. split; [exact Heq | exact Hclose].
Defined.

(** ** Metadata decoder: ranges *)



Lemma unsigned_field_fits (finfo : hiddev_field_info) :
  field_info_wf finfo -> isFieldSigned finfo = false ->
  physical_minimum finfo <= physical_maximum finfo ->
  in_int (physical_maximum finfo - physical_minimum finfo).
Proof.
  unfold field_info_wf, isFieldSigned, in_int, INT_MIN, INT_MAX.
  intros (Hmin & Hmax & _) Hsigned Hle.
  destruct (Z.ltb_spec (physical_minimum finfo) 0); [discriminate Hsigned|]. lia.
Qed.

(** X11. When the difference of the physical bounds fits an [int] (as it
    does for every unsigned field whose bounds are in order),
    [getFieldBitSize] returns 8, 16 or 32, the range is below 2 to that
    power, and no smaller one of the three widths covers it. *)
Theorem getFieldBitSize_covers (finfo : hiddev_field_info) :
  in_int (physical_maximum finfo - physical_minimum finfo) ->
  let range := physical_maximum finfo - physical_minimum finfo in
  let b := getFieldBitSize finfo in
  (b = 8 \/ b = 16 \/ b = 32)
  /\ range < 2 ^ b
  /\ (0 <= range ->
      forall b', b' = 8 \/ b' = 16 \/ b' = 32 -> range < 2 ^ b' -> b <= b').
Proof.
  intros Hfit range b. subst b.
  rewrite (getFieldBitSize_no_overflow finfo Hfit). fold range.
  unfold in_int, INT_MIN, INT_MAX in Hfit. fold range in Hfit.
  unfold width_of_range.
  destruct (Z.leb_spec range 0xff); [|destruct (Z.leb_spec range 0xffff);
    [|destruct (Z.leb_spec range 0xffffffff)]].
  - split; [left; reflexivity|]. split; [simpl; lia|].
    intros _ b' [-> | [-> | ->]] _; lia.
  - split; [right; left; reflexivity|]. split; [simpl; lia|].
    intros _ b' [-> | [-> | ->]] Hb'; simpl in Hb'; lia.
  - split; [right; right; reflexivity|]. split; [simpl; lia|].
    intros _ b' [-> | [-> | ->]] Hb'; simpl in Hb'; lia.
  - lia.
Qed.

Lemma getFieldBitSize_covers_witness :
  physical_maximum Sim.temperature_field - physical_minimum Sim.temperature_field
  < 2 ^ getFieldBitSize Sim.temperature_field.
Proof.
  assert (Hfit : in_int (physical_maximum Sim.temperature_field
                         - physical_minimum Sim.temperature_field))
    by (unfold in_int, INT_MIN, INT_MAX; simpl; lia).
  exact (proj1 (proj2 (getFieldBitSize_covers Sim.temperature_field Hfit))).
Defined.

(** ** Status strings *)

(** X12. The descriptions of the status codes are pairwise different, and
    none of them is the text kept for unknown codes. *)
Theorem getStatusString_injective (a b : EOakStatus) :
  (getStatusString a = getStatusString b <-> a = b)
  /\ getStatusString a <> str "Unknown error".
Proof.
  split; [split|].
  - destruct a, b; intros H; try reflexivity; vm_compute in H; discriminate H.
  - intros ->. reflexivity.
  - destruct a; vm_compute; discriminate.
Qed.

(** ** String descriptors *)


(** ** Channel information: a failed name query *)

Lemma getChannelName_failed {K} (dev : HidDev K) (h ch : Z)
    (out name : std_string) (st : EOakStatus) (w w' : World K) :
  getChannelName dev h ch out w = Returns (st, name) w' ->
  st <> eOakStatusOK ->
  name = out /\ trace w' = trace w ++ [EvGSTRING h (to_int (4 + ch))].
Proof.
  unfold getChannelName, getStringDescriptor, bind. rewrite syscall_run.
  destruct (HIDIOCGSTRING dev h (to_int (4 + ch)) (kernel w)) as [[r answer] k].
  cbn [fst snd]. cbv zeta. destruct (r <? 0); unfold ret; intros [= <- <- <-] Hst.
  - split; reflexivity.
  - contradiction.
Qed.

(** X14. When the channel-name query fails, [getChannelInfo] stops there:
    it returns the status of that query, has made that one kernel call
    only, and hands back the channel information as it was passed. *)
Theorem getChannelInfo_name_failure {K} (dev : HidDev K) (fuel : nat) (h ch : Z)
    (info : ChannelInfo) (finfo : hiddev_field_info) (st : EOakStatus)
    (name : std_string) (w w' : World K) :
  getChannelName dev h ch (channelName info) w = Returns (st, name) w' ->
  st <> eOakStatusOK ->
  getChannelInfo dev fuel h ch info finfo w = Returns (st, info) w'
  /\ trace w' = trace w ++ [EvGSTRING h (to_int (4 + ch))].
Proof.
  intros Hname Hst.
  destruct (getChannelName_failed dev h ch _ name st w w' Hname Hst) as [-> Htr].
  split; [|exact Htr].
  unfold getChannelInfo, bind. rewrite Hname.
  destruct (is_OK st) eqn:Hok; [apply is_OK_true in Hok; contradiction|].
  cbn [negb]. destruct info. reflexivity.
Qed.

Lemma getChannelInfo_name_failure_witness :
  getChannelInfo (Sim.device (Sim.mk_answers (-1) [] 0 Sim.temperature_field
                                0 0 (fun _ => 0) 0 0 0 (fun _ => mk_event 0 0)))
    1 3 0 Sim.blank_info Sim.temperature_field Sim.boot
  = Returns (eOakStatusInvalidStringDescriptorIndex, Sim.blank_info)
      (mk_World 1%nat (tempReport Sim.boot) [EvGSTRING 3 4]).
Proof.
  assert (Hst : eOakStatusInvalidStringDescriptorIndex <> eOakStatusOK)
    by discriminate.
  refine (proj1 (getChannelInfo_name_failure _ 1 3 0 Sim.blank_info
                   Sim.temperature_field eOakStatusInvalidStringDescriptorIndex
                   [] Sim.boot _ _ Hst)).
  reflexivity.
Defined.

(** ** Opening a device *)

Lemma kcall_run {K A} (f : K -> A * K) (w : World K) :
  kcall f w
  = Returns (fst (f (kernel w)))
      (mk_World (snd (f (kernel w))) (tempReport w) (trace w)).
Proof. unfold kcall. destruct (f (kernel w)). reflexivity. Qed.

(** X15. [openDevice] ends in OK, ErrorOpeningFile, InternalError or
    InvalidDeviceType. When [open] fails nothing else is called; every
    failure after a successful [open] ends with one [close] of the
    descriptor; on success the descriptor is left open. *)
Theorem openDevice_calls {K} (sys : HidSys K) (kToradexVendorID : Z)
    (devicePath : std_string) (devInfo : hiddev_devinfo)
    (w : World (K * list sys_call)) :
  exists st fd w' calls,
    openDevice (logged sys) kToradexVendorID devicePath devInfo w
    = Returns (st, fd) w'
    /\ snd (kernel w') = snd (kernel w) ++ CallOpen devicePath :: calls
    /\ match st with
       | eOakStatusOK =>
           0 <= fd /\ calls = [CallInitReport fd; CallGDevInfo fd]
       | eOakStatusErrorOpeningFile => fd < 0 /\ calls = []
       | eOakStatusInternalError =>
           0 <= fd /\ calls = [CallInitReport fd; CallClose fd]
       | eOakStatusInvalidDeviceType =>
           0 <= fd /\ calls = [CallInitReport fd; CallGDevInfo fd; CallClose fd]
       | _ => False
       end.
Proof.
  unfold openDevice, closeDevice, bind. rewrite kcall_run.
  destruct w as [[k0 log0] t0 tr0]. cbn [kernel tempReport trace logged sys_open fst snd].
  destruct (sys_open sys devicePath k0) as [fd k1]. cbn [fst snd].
  destruct (Z.ltb_spec fd 0) as [Hneg|Hpos].
  { unfold ret. eexists _, _, _, []. split; [reflexivity|].
    split; [reflexivity|]. split; [exact Hneg | reflexivity]. }
  rewrite kcall_run. cbn [kernel tempReport trace logged HIDIOCINITREPORT fst snd].
  destruct (HIDIOCINITREPORT sys fd k1) as [r k2]. cbn [fst snd].
  destruct (r <? 0).
  { rewrite kcall_run. cbn [kernel tempReport trace logged sys_close fst snd].
    destruct (sys_close sys fd k2) as [c k3]. cbn [fst snd]. unfold ret.
    eexists _, _, _, _. split; [reflexivity|]. cbn [kernel snd].
    rewrite <- !app_assoc. split; [reflexivity|]. split; [exact Hpos | reflexivity]. }
  rewrite kcall_run. cbn [kernel tempReport trace logged HIDIOCGDEVINFO fst snd].
  destruct (HIDIOCGDEVINFO sys fd devInfo k2) as [[g devInfo'] k3]. cbn [fst snd].
  destruct (negb (kToradexVendorID =? vendor devInfo')).
  - rewrite kcall_run. cbn [kernel tempReport trace logged sys_close fst snd].
    destruct (sys_close sys fd k3) as [c k4]. cbn [fst snd]. unfold ret.
    eexists _, _, _, _. split; [reflexivity|]. cbn [kernel snd].
    rewrite <- !app_assoc. split; [reflexivity|]. split; [exact Hpos | reflexivity].
  - unfold ret. eexists _, _, _, _. split; [reflexivity|]. cbn [kernel snd].
    rewrite <- !app_assoc. split; [reflexivity|]. split; [exact Hpos | reflexivity].
Qed.

Example openDevice_calls_foreign_vendor :
  world_of (openDevice (logged (Sim2.system 0x0483 0)) Sim2.toradex
              (str "/dev/usb/hiddev0") Sim2.blank_devinfo Sim2.boot)
  = mk_World (4%nat, [CallOpen (str "/dev/usb/hiddev0"); CallInitReport 3;
                      CallGDevInfo 3; CallClose 3])
      (tempReport Sim2.boot) [].
Proof. reflexivity. Qed.

(** X16. The return value of [HIDIOCGDEVINFO] is not looked at in
    [openDevice]: when [open] and the initialisation succeed and the query
    fails leaving the structure untouched, the device is accepted exactly
    when the uninitialised [vendor] member happens to hold the Toradex
    identifier. *)
Theorem openDevice_unchecked_devinfo {K} (sys : HidSys K) (kToradexVendorID : Z)
    (devicePath : std_string) (devInfo : hiddev_devinfo) (w : World K) :
  (forall k, 0 <= fst (sys_open sys devicePath k)) ->
  (forall h k, 0 <= fst (HIDIOCINITREPORT sys h k)) ->
  (forall h d k, fst (fst (HIDIOCGDEVINFO sys h d k)) = -1
                 /\ snd (fst (HIDIOCGDEVINFO sys h d k)) = d) ->
  fst <$> result_of (openDevice sys kToradexVendorID devicePath devInfo w)
  = Some (if kToradexVendorID =? vendor devInfo then eOakStatusOK
          else eOakStatusInvalidDeviceType).
Proof.
  intros Hopen Hinit Hinfo.
  unfold openDevice, closeDevice, bind. rewrite kcall_run.
  specialize (Hopen (kernel w)).
  destruct (Z.ltb_spec (fst (sys_open sys devicePath (kernel w))) 0); [lia|].
  rewrite kcall_run. cbn [kernel].
  match goal with
  | |- context [HIDIOCINITREPORT sys ?h ?k] => specialize (Hinit h k)
  end.
  match goal with
  | |- context [fst (HIDIOCINITREPORT sys ?h ?k) <? 0] =>
      destruct (Z.ltb_spec (fst (HIDIOCINITREPORT sys h k)) 0); [lia|]
  end.
  rewrite kcall_run. cbn [kernel].
  match goal with
  | |- context [HIDIOCGDEVINFO sys ?h devInfo ?k] =>
      destruct (Hinfo h devInfo k) as [_ Hsame];
      destruct (HIDIOCGDEVINFO sys h devInfo k) as [[g d] k3]
  end.
  cbn [fst snd] in *. subst d.
  destruct (kToradexVendorID =? vendor devInfo); cbn [negb].
  - reflexivity.
  - rewrite kcall_run. reflexivity.
Qed.

Lemma openDevice_unchecked_devinfo_witness :
  fst <$> result_of (openDevice Sim2.system_noinfo Sim2.toradex
                       (str "/dev/usb/hiddev0") Sim2.lucky_devinfo Sim.boot)
  = Some eOakStatusOK
  /\ fst <$> result_of (openDevice Sim2.system_noinfo Sim2.toradex
                          (str "/dev/usb/hiddev0") Sim2.blank_devinfo Sim.boot)
     = Some eOakStatusInvalidDeviceType.
Proof.
  assert (Hopen : forall k, 0 <= fst (sys_open Sim2.system_noinfo
                                        (str "/dev/usb/hiddev0") k))
    by (intros k; simpl; lia).
  assert (Hinit : forall h k, 0 <= fst (HIDIOCINITREPORT Sim2.system_noinfo h k))
    by (intros h k; simpl; lia).
  assert (Hinfo : forall h d k,
            fst (fst (HIDIOCGDEVINFO Sim2.system_noinfo h d k)) = -1
            /\ snd (fst (HIDIOCGDEVINFO Sim2.system_noinfo h d k)) = d)
    by (intros h d k; split; reflexivity).
  split.
  - exact (openDevice_unchecked_devinfo Sim2.system_noinfo Sim2.toradex _
             Sim2.lucky_devinfo Sim.boot Hopen Hinit Hinfo).
  - exact (openDevice_unchecked_devinfo Sim2.system_noinfo Sim2.toradex _
             Sim2.blank_devinfo Sim.boot Hopen Hinit Hinfo).
Defined.

(** ** Device information *)

Lemma getStringDescriptor_status {K} (dev : HidDev K) (h index : Z)
    (out s : std_string) (st : EOakStatus) (w w' : World K) :
  getStringDescriptor dev h index out w = Returns (st, s) w' ->
  st = eOakStatusOK \/ st = eOakStatusInvalidStringDescriptorIndex.
Proof.
  unfold getStringDescriptor, bind. rewrite syscall_run.
  destruct (HIDIOCGSTRING dev h index (kernel w)) as [[r answer] k].
  cbn [fst snd]. cbv zeta.
  destruct (r <? 0); unfold ret; intros [= <- _ _]; [right | left]; reflexivity.
Qed.

(** X17. [getDeviceInfo] can only end in OK, InternalError or
    InvalidStringDescriptorIndex: the two checks of [getUserDeviceName]
    never fire, so a failed name transaction (ReadError, WriteError) does
    not stop it and is not reported. *)
Theorem getDeviceInfo_statuses {K} (dev : HidDev K) (sys : HidSys K)
    (fuel : nat) (h : Z) (outDeviceInfo info : DeviceInfo)
    (devInfo : hiddev_devinfo) (st : EOakStatus) (w : World K) :
  result_of (getDeviceInfo dev sys fuel h outDeviceInfo devInfo w) = Some (st, info) ->
  st = eOakStatusOK \/ st = eOakStatusInternalError
  \/ st = eOakStatusInvalidStringDescriptorIndex.
Proof.
  unfold getDeviceInfo, getDeviceName, getNumberOfChannels, getDeviceSerialNumber, bind.
  rewrite kcall_run.
  destruct (HIDIOCGDEVINFO sys h devInfo (kernel w)) as [[r devInfo'] k1].
  cbn [fst snd]. unfold ret at 1.
  destruct (r <? 0); [intros [= <- _]; right; left; reflexivity|].
  rewrite kcall_run. cbn [kernel].
  destruct (HIDIOCGNAME sys h k1) as [[r2 answer] k2]. cbn [fst snd]. cbv zeta.
  destruct (r2 <? 0); unfold ret at 1; cbn [is_OK EOakStatus_eqb negb];
    [unfold ret; intros [= <- _]; right; left; reflexivity|].
  cbn [persistentUserDeviceName volatileUserDeviceName serialNumber
       numberOfChannels vendorID productID version_ deviceName].
  match goal with
  | |- context [getUserDeviceName dev fuel h ?o true ?w1] =>
      destruct (getUserDeviceName dev fuel h o true w1) as [[s1 pname] w2|w2] eqn:Hp;
        [|discriminate]
  end.
  assert (Hs1 : s1 = eOakStatusOK).
  { eapply getUserDeviceName_status. rewrite Hp. reflexivity. }
  subst s1. cbn [is_OK EOakStatus_eqb negb].
  match goal with
  | |- context [getUserDeviceName dev fuel h ?o false ?w1] =>
      destruct (getUserDeviceName dev fuel h o false w1) as [[s2 vname] w3|w3] eqn:Hv;
        [|discriminate]
  end.
  assert (Hs2 : s2 = eOakStatusOK).
  { eapply getUserDeviceName_status. rewrite Hv. reflexivity. }
  subst s2. cbn [is_OK EOakStatus_eqb negb].
  match goal with
  | |- context [getStringDescriptor dev h 3 ?o ?w1] =>
      destruct (getStringDescriptor dev h 3 o w1) as [[s3 serial] w4|w4] eqn:Hser;
        [|discriminate]
  end.
  apply getStringDescriptor_status in Hser.
  destruct Hser as [-> | ->]; cbn [is_OK EOakStatus_eqb negb].
  - rewrite kcall_run.
    destruct (HIDIOCGREPORTINFO sys h HID_REPORT_TYPE_INPUT HID_REPORT_ID_FIRST
                (kernel w4)) as [[r5 n] k5].
    cbn [fst snd]. destruct (r5 <? 0); unfold ret; intros [= <- _];
      [right; left | left]; reflexivity.
  - unfold ret. intros [= <- _]. right; right. reflexivity.
Qed.

Lemma getDeviceInfo_statuses_witness :
  result_of (sendReportAndWaitForReply (Sim.device Sim.unreadable) 1 3
               Sim.name_query Sim.boot)
  = Some (eOakStatusReadError, Sim.name_query)
  /\ fst <$> result_of (getDeviceInfo (Sim.device Sim.unreadable)
                          (Sim2.system Sim2.toradex 0) 1 3
                          Sim2.blank_device_info Sim2.blank_devinfo Sim.boot)
     = Some eOakStatusOK.
Proof.
  split; [reflexivity|].
  destruct (getDeviceInfo (Sim.device Sim.unreadable) (Sim2.system Sim2.toradex 0)
              1 3 Sim2.blank_device_info Sim2.blank_devinfo Sim.boot)
    as [[st info] w'|w'] eqn:Hrun; [|discriminate Hrun].
  assert (Hres : result_of (getDeviceInfo (Sim.device Sim.unreadable)
                              (Sim2.system Sim2.toradex 0) 1 3
                              Sim2.blank_device_info Sim2.blank_devinfo Sim.boot)
                 = Some (st, info)) by (rewrite Hrun; reflexivity).
  destruct (getDeviceInfo_statuses _ _ _ _ _ _ _ _ _ Hres) as [-> | [-> | ->]];
    [reflexivity | discriminate Hrun | discriminate Hrun].
Defined.

(** ** Rotor flags *)

Lemma rotor_set_bits (mask flags : Z) (on : bool) (i : Z) :
  0 <= i ->
  Z.testbit (Z.lor (Z.land flags (Z.lnot mask)) (if on then mask else 0)) i
  = if Z.testbit mask i then on else Z.testbit flags i.
Proof.
  intros Hi. rewrite Z.lor_spec, Z.land_spec, Z.lnot_spec by exact Hi.
  destruct on.
  - destruct (Z.testbit mask i), (Z.testbit flags i); reflexivity.
  - rewrite Z.bits_0.
    destruct (Z.testbit mask i), (Z.testbit flags i); reflexivity.
Qed.

(** X18. [TRotor::enable] and [TRotor::parkingEnabled] overwrite the bits
    of their mask with the argument and leave every other bit of the flags
    word as it was. *)
Theorem rotor_flag_bits (R_ROTOR_ENABLE R_ROTOR_PARK flags : Z) (on : bool) (i : Z) :
  0 <= i ->
  Z.testbit (Rotor.enable R_ROTOR_ENABLE flags on) i
  = (if Z.testbit R_ROTOR_ENABLE i then on else Z.testbit flags i)
  /\ Z.testbit (Rotor.parkingEnabled R_ROTOR_PARK flags on) i
     = (if Z.testbit R_ROTOR_PARK i then on else Z.testbit flags i).
Proof.
  intros Hi. unfold Rotor.enable, Rotor.parkingEnabled. cbv zeta.
  split; apply rotor_set_bits; exact Hi.
Qed.

Lemma rotor_flag_bits_witness :
  Z.testbit (Rotor.enable 1 6 true) 0 = true
  /\ Z.testbit (Rotor.enable 1 6 true) 1 = true.
Proof.
  assert (H0 : 0 <= 0) by lia. assert (H1 : 0 <= 1) by lia.
  split.
  - exact (eq_trans (proj1 (rotor_flag_bits 1 2 6 true 0 H0)) eq_refl).
  - exact (eq_trans (proj1 (rotor_flag_bits 1 2 6 true 1 H1)) eq_refl).
Defined.

(** X19. The last call decides: enabling twice keeps the second argument.
    Enabling and parking do not disturb each other when their masks share
    no bit: the two calls commute. *)
Theorem rotor_flags_compose (R_ROTOR_ENABLE R_ROTOR_PARK flags : Z)
    (on on' park : bool) :
  Z.land R_ROTOR_ENABLE R_ROTOR_PARK = 0 ->
  Rotor.enable R_ROTOR_ENABLE (Rotor.enable R_ROTOR_ENABLE flags on) on'
  = Rotor.enable R_ROTOR_ENABLE flags on'
  /\ Rotor.enable R_ROTOR_ENABLE (Rotor.parkingEnabled R_ROTOR_PARK flags park) on
     = Rotor.parkingEnabled R_ROTOR_PARK (Rotor.enable R_ROTOR_ENABLE flags on) park.
Proof.
  intros Hdisj. unfold Rotor.enable, Rotor.parkingEnabled. cbv zeta.
  split; apply Z.bits_inj'; intros i Hi.
  - rewrite !rotor_set_bits by exact Hi.
    destruct (Z.testbit R_ROTOR_ENABLE i); reflexivity.
  - rewrite !rotor_set_bits by exact Hi.
    pose proof (f_equal (fun z => Z.testbit z i) Hdisj) as Hbit.
    cbv beta in Hbit. rewrite Z.land_spec, Z.bits_0 in Hbit.
    destruct (Z.testbit R_ROTOR_ENABLE i), (Z.testbit R_ROTOR_PARK i);
      try reflexivity; discriminate Hbit.
Qed.

Lemma rotor_flags_compose_witness :
  Rotor.enable 1 (Rotor.parkingEnabled 2 4 true) true = 7
  /\ Rotor.parkingEnabled 2 (Rotor.enable 1 4 true) true = 7.
Proof.
  assert (Hdisj : Z.land 1 2 = 0) by reflexivity.
  destruct (rotor_flags_compose 1 2 4 true true true Hdisj) as [_ Hcomm].
  split; [reflexivity|]. rewrite <- Hcomm. reflexivity.
Defined.
